(** * DeepSense front end: the Deep Dive workspace

    A shallow embedding of the two versions of the Deep Dive page that the
    repository carries,

    - [Frontend/src/pages/DeepDive.tsx]        (module [Monolith] below), and
    - [Frontend/src/pages/Deepdive/index.tsx]  (module [Split] below),

    together with the properties of their selection, chat and audio-scrub
    handlers.

    Both files are React function components.  The embedding keeps the three
    facts about React that the handlers depend on:

    - a handler is a closure over the values of the render that created it:
      it _reads_ state from that snapshot, while its [setX] calls are queued
      and applied in order before the next render (the updater form
      [setX(prev => ...)] receives the value the queue has produced so far).
      No handler reads a state cell other than through its closure or an
      updater, so the model applies each [setX] to the live cell at once and
      records the call in a trace, which gives the same renders;
    - after every event the component re-renders and runs the effects whose
      dependency list changed, dependencies being compared by identity
      ([Object.is]), so that two distinct arrays with the same contents
      differ;
    - listeners installed by an effect keep the closures of the render in
      which that effect last ran.

    JavaScript numbers are modelled as rationals ([Q]); rounding, [NaN] and
    infinities are outside the model, and the few places where the source
    divides carry the corresponding non-zero side condition in the theorems.
    JavaScript strings are lists of UTF-16 code units. *)

From Stdlib Require Import QArith Qround Strings.String Strings.Ascii.
From Stdlib Require Import DecimalString.
From stdpp Require Import base list numbers.

Close Scope Q_scope.
Close Scope string_scope.

(** ** JavaScript strings *)

Abbreviation jsstring := (list N).

(** A string literal of the source, as code units. *)
Definition js (s : string) : jsstring :=
  (N_of_ascii <$> list_ascii_of_string s).

(** ECMAScript [WhiteSpace] and [LineTerminator] code points, the characters
    removed by [String.prototype.trim]. *)
Definition isWhiteSpace (c : N) : bool :=
  ((c =? 9) || (c =? 10) || (c =? 11) || (c =? 12) || (c =? 13) || (c =? 32)
   || (c =? 160) || (c =? 5760) || ((8192 <=? c) && (c <=? 8202))
   || (c =? 8232) || (c =? 8233) || (c =? 8239) || (c =? 8287)
   || (c =? 12288) || (c =? 65279))%N.

Fixpoint trimStart (s : jsstring) : jsstring :=
  match s with
  | c :: s' => if isWhiteSpace c then trimStart s' else s
  | [] => []
  end.

Definition trimEnd (s : jsstring) : jsstring := rev (trimStart (rev s)).

(** [s.trim()] *)
Definition trim (s : jsstring) : jsstring := trimEnd (trimStart s).

(** [Math.max] and [Math.min] on two numbers. *)
Definition Math_max (a b : Q) : Q := if Qle_bool a b then b else a.
Definition Math_min (a b : Q) : Q := if Qle_bool a b then a else b.

(** ** Data model *)

Module Paper.
(** [interface Paper] *)
Record t := mk {
  id : jsstring;
  title : jsstring;
  authors : list jsstring;
  conference : jsstring;
  year : Q;
  abstract : jsstring;
  keywords : list jsstring;
  citations : Q;
  organization : jsstring
}.
End Paper.

(** [interface ChatMessage] *)
Record ChatMessage := { message : jsstring; response : jsstring }.

(** A JavaScript array of strings: an object with an identity ([ref]) and its
    contents.  Two arrays are the same dependency for React only when their
    [ref]s agree. *)
Record StringArray := { ref : nat; elems : list jsstring }.

(** The [useState] cells of the component.  [showCustomizeModal] and
    [showAudioPlayer] exist in [Deepdive/index.tsx] only; no modelled handler
    of [DeepDive.tsx] touches them. *)
Record State := {
  papers : list Paper.t;
  selectedPapers : StringArray;
  isSourcesCollapsed : bool;
  messages : list ChatMessage;
  inputMessage : jsstring;
  isPlaying : bool;
  currentTime : Q;
  duration : Q;
  showOptions : bool;
  isDragging : bool;
  showCustomizeModal : bool;
  showAudioPlayer : bool
}.

Module Audio.
(** The part of the [<audio>] element the handlers touch. *)
Record t := { currentTime : Q; duration : Q }.
End Audio.

Module Rect.
(** The part of [getBoundingClientRect()] the handlers read. *)
Record t := { left : Q; width : Q }.
End Rect.

(** Names of the state cells, for the effect trace. *)
Inductive Cell :=
| papersCell | selectedPapersCell | messagesCell | inputMessageCell
| currentTimeCell | durationCell | isDraggingCell.

(** What a handler does besides computing: calls of state setters, the chat
    request, and writes of the media position, in program order. *)
Inductive Effect :=
| SetState (c : Cell)
| ChatRequest (body : ChatMessage)
| MediaSeek (t : Q).

(** Everything a handler can read or write that is not a closure variable:
    the live state cells, the two refs, the array allocator and the trace. *)
Record World := {
  state : State;
  audioRef : option Audio.t;
  progressRef : option Rect.t;
  nextRef : nat;
  log : list Effect
}.

(** ** Record updates *)

Definition set_papers (v : list Paper.t) (s : State) : State :=
  {| papers := v; selectedPapers := selectedPapers s;
     isSourcesCollapsed := isSourcesCollapsed s; messages := messages s;
     inputMessage := inputMessage s; isPlaying := isPlaying s;
     currentTime := currentTime s; duration := duration s;
     showOptions := showOptions s; isDragging := isDragging s;
     showCustomizeModal := showCustomizeModal s;
     showAudioPlayer := showAudioPlayer s |}.

Definition set_selectedPapers (v : StringArray) (s : State) : State :=
  {| papers := papers s; selectedPapers := v;
     isSourcesCollapsed := isSourcesCollapsed s; messages := messages s;
     inputMessage := inputMessage s; isPlaying := isPlaying s;
     currentTime := currentTime s; duration := duration s;
     showOptions := showOptions s; isDragging := isDragging s;
     showCustomizeModal := showCustomizeModal s;
     showAudioPlayer := showAudioPlayer s |}.

Definition set_messages (v : list ChatMessage) (s : State) : State :=
  {| papers := papers s; selectedPapers := selectedPapers s;
     isSourcesCollapsed := isSourcesCollapsed s; messages := v;
     inputMessage := inputMessage s; isPlaying := isPlaying s;
     currentTime := currentTime s; duration := duration s;
     showOptions := showOptions s; isDragging := isDragging s;
     showCustomizeModal := showCustomizeModal s;
     showAudioPlayer := showAudioPlayer s |}.

Definition set_inputMessage (v : jsstring) (s : State) : State :=
  {| papers := papers s; selectedPapers := selectedPapers s;
     isSourcesCollapsed := isSourcesCollapsed s; messages := messages s;
     inputMessage := v; isPlaying := isPlaying s;
     currentTime := currentTime s; duration := duration s;
     showOptions := showOptions s; isDragging := isDragging s;
     showCustomizeModal := showCustomizeModal s;
     showAudioPlayer := showAudioPlayer s |}.

Definition set_currentTime (v : Q) (s : State) : State :=
  {| papers := papers s; selectedPapers := selectedPapers s;
     isSourcesCollapsed := isSourcesCollapsed s; messages := messages s;
     inputMessage := inputMessage s; isPlaying := isPlaying s;
     currentTime := v; duration := duration s;
     showOptions := showOptions s; isDragging := isDragging s;
     showCustomizeModal := showCustomizeModal s;
     showAudioPlayer := showAudioPlayer s |}.

Definition set_duration (v : Q) (s : State) : State :=
  {| papers := papers s; selectedPapers := selectedPapers s;
     isSourcesCollapsed := isSourcesCollapsed s; messages := messages s;
     inputMessage := inputMessage s; isPlaying := isPlaying s;
     currentTime := currentTime s; duration := v;
     showOptions := showOptions s; isDragging := isDragging s;
     showCustomizeModal := showCustomizeModal s;
     showAudioPlayer := showAudioPlayer s |}.

Definition set_isDragging (v : bool) (s : State) : State :=
  {| papers := papers s; selectedPapers := selectedPapers s;
     isSourcesCollapsed := isSourcesCollapsed s; messages := messages s;
     inputMessage := inputMessage s; isPlaying := isPlaying s;
     currentTime := currentTime s; duration := duration s;
     showOptions := showOptions s; isDragging := v;
     showCustomizeModal := showCustomizeModal s;
     showAudioPlayer := showAudioPlayer s |}.

Definition with_state (f : State → State) (w : World) : World :=
  {| state := f (state w); audioRef := audioRef w;
     progressRef := progressRef w; nextRef := nextRef w; log := log w |}.

Definition with_audio (a : option Audio.t) (w : World) : World :=
  {| state := state w; audioRef := a; progressRef := progressRef w;
     nextRef := nextRef w; log := log w |}.

Definition with_nextRef (n : nat) (w : World) : World :=
  {| state := state w; audioRef := audioRef w; progressRef := progressRef w;
     nextRef := n; log := log w |}.

Definition emit (e : Effect) (w : World) : World :=
  {| state := state w; audioRef := audioRef w; progressRef := progressRef w;
     nextRef := nextRef w; log := log w ++ [e] |}.

(** ** The handler monad *)

Definition M (A : Type) : Type := World → A * World.

#[global] Instance M_ret : MRet M := λ A a w, (a, w).
#[global] Instance M_bind : MBind M :=
  λ A B k m w, let '(a, w') := m w in k a w'.

(** Run a handler for its effect on the world. *)
Definition exec (m : M ()) (w : World) : World := (m w).2.

(** *** Primitives *)

(** [progressRef.current], as the rectangle it would report. *)
Definition progressRef_current : M (option Rect.t) := λ w, (progressRef w, w).

(** [audioRef.current] *)
Definition audioRef_current : M (option Audio.t) := λ w, (audioRef w, w).

(** Allocation of a new array: [[]], [[...prev, x]], [a.filter(f)] and
    [a.map(f)] all return a fresh object. *)
Definition newArray (l : list jsstring) : M StringArray :=
  λ w, ({| ref := nextRef w; elems := l |}, with_nextRef (S (nextRef w)) w).

Definition setSelectedPapers (v : StringArray) : M () :=
  λ w, ((), emit (SetState selectedPapersCell)
              (with_state (set_selectedPapers v) w)).

(** [setSelectedPapers(prev => ...)]: the updater builds its result from the
    live value. *)
Definition setSelectedPapersFn (f : StringArray → M StringArray) : M () :=
  v ← (λ w, f (selectedPapers (state w)) w); setSelectedPapers v.

Definition setPapers (v : list Paper.t) : M () :=
  λ w, ((), emit (SetState papersCell) (with_state (set_papers v) w)).

Definition setPapersFn (f : list Paper.t → list Paper.t) : M () :=
  λ w, ((), emit (SetState papersCell)
              (with_state (λ s, set_papers (f (papers s)) s) w)).

Definition setMessagesFn (f : list ChatMessage → list ChatMessage) : M () :=
  λ w, ((), emit (SetState messagesCell)
              (with_state (λ s, set_messages (f (messages s)) s) w)).

Definition setMessages (v : list ChatMessage) : M () :=
  λ w, ((), emit (SetState messagesCell) (with_state (set_messages v) w)).

Definition setInputMessage (v : jsstring) : M () :=
  λ w, ((), emit (SetState inputMessageCell)
              (with_state (set_inputMessage v) w)).

Definition setCurrentTime (v : Q) : M () :=
  λ w, ((), emit (SetState currentTimeCell)
              (with_state (set_currentTime v) w)).

Definition setDuration (v : Q) : M () :=
  λ w, ((), emit (SetState durationCell) (with_state (set_duration v) w)).

Definition setIsDragging (v : bool) : M () :=
  λ w, ((), emit (SetState isDraggingCell)
              (with_state (set_isDragging v) w)).

(** [audioRef.current.currentTime = t] on the element [a]. *)
Definition audio_set_currentTime (a : Audio.t) (t : Q) : M () :=
  λ w, ((), emit (MediaSeek t)
              (with_audio (Some {| Audio.currentTime := t;
                                   Audio.duration := Audio.duration a |}) w)).

(** [fetch("http://localhost:8000/api/v1/chat", {method: "POST", body})] *)
Definition fetch_chat (body : ChatMessage) : M () :=
  λ w, ((), emit (ChatRequest body) w).

(** ** Handlers common to both files

    Each handler takes the snapshot [c] of the render that created it (its
    closure) and acts on the world.  The bodies below are the same text in
    [DeepDive.tsx] and in [Deepdive/index.tsx]. *)

(** [handleSelectAll] *)
Definition handleSelectAll (c : State) : M () :=
  if (length (elems (selectedPapers c)) =? length (papers c))%nat then
    a ← newArray []; setSelectedPapers a
  else
    a ← newArray (Paper.id <$> papers c); setSelectedPapers a.

(** The updater of [handlePaperSelect], on the contents of the array. *)
Definition togglePaper (paperId : jsstring) (prev : list jsstring)
  : list jsstring :=
  if bool_decide (paperId ∈ prev)
  then filter (λ id, id ≠ paperId) prev
  else prev ++ [paperId].

(** [handlePaperSelect] *)
Definition handlePaperSelect (paperId : jsstring) : M () :=
  setSelectedPapersFn (λ prev, newArray (togglePaper paperId (elems prev))).

(** The outcome of the awaited chat request: [fetch] rejects, or it yields a
    response with its [ok] flag and, when [response.json()] resolves, the
    [response] field of the parsed body. *)
Inductive FetchResult :=
| NetworkError
| Response (ok : bool) (json : option jsstring).

Definition fallbackText : jsstring :=
  js "Sorry, there was an error processing your message.".

(** [prev.map((msg, idx) => idx === prev.length - 1 ? last : msg)] *)
Definition replaceLast (last : ChatMessage) (prev : list ChatMessage)
  : list ChatMessage :=
  imap (λ idx msg,
          if (Z.of_nat idx =? Z.of_nat (length prev) - 1)%Z then last else msg)
       prev.

(** [handleSendMessage], up to the [await]: the guard, the two local updates
    and the request.  ([DeepDive.tsx] also schedules a scroll of the chat
    container here, which touches no state.) *)
Definition handleSendMessage (c : State) : M () :=
  match trim (inputMessage c) with
  | [] => mret ()
  | _ :: _ =>
      let userMessage := {| message := inputMessage c; response := [] |} in
      setMessagesFn (λ prev, prev ++ [userMessage]);;
      setInputMessage [];;
      fetch_chat {| message := inputMessage c; response := [] |}
  end.

(** [handleSendMessage], from the [await] on: the [try] body resumes with the
    response, any rejection or the explicit [throw] on [!response.ok] lands
    in the [catch] (whose [console.error] is not part of the model).  The
    closure still holds the [inputMessage] of the render that submitted. *)
Definition handleSendMessage_settled (c : State) (r : FetchResult) : M () :=
  match r with
  | Response true (Some data_response) =>
      setMessagesFn
        (replaceLast {| message := inputMessage c;
                        response := data_response |})
  | _ =>
      setMessagesFn
        (replaceLast {| message := inputMessage c;
                        response := fallbackText |})
  end.

(** [handleProgressClick] *)
Definition handleProgressClick (c : State) (clientX : Q) : M () :=
  r ← progressRef_current;
  match r with
  | Some rect =>
      if negb (isDragging c) then
        let x := (clientX - Rect.left rect)%Q in
        let percentage := (x / Rect.width rect)%Q in
        let newTime := (percentage * duration c)%Q in
        setCurrentTime newTime;;
        a ← audioRef_current;
        match a with
        | Some el => audio_set_currentTime el newTime
        | None => mret ()
        end
      else mret ()
  | None => mret ()
  end.

(** [handleDragStart] *)
Definition handleDragStart : M () := setIsDragging true.

(** The [onTimeUpdate] and [onLoadedMetadata] props of the [<audio>]
    element, and the continuation of the fetch of the papers on mount. *)
Definition onTimeUpdate (c : State) : M () :=
  a ← audioRef_current;
  match a with
  | Some el =>
      if negb (isDragging c) then setCurrentTime (Audio.currentTime el)
      else mret ()
  | None => mret ()
  end.

Definition onLoadedMetadata : M () :=
  a ← audioRef_current;
  match a with
  | Some el => setDuration (Audio.duration el)
  | None => mret ()
  end.

Definition onPapersFetched (data : list Paper.t) : M () := setPapers data.

(** The state every mount starts from (the [useState] initialisers). *)
Definition initialState : State :=
  {| papers := []; selectedPapers := {| ref := 0; elems := [] |};
     isSourcesCollapsed := false; messages := []; inputMessage := [];
     isPlaying := false; currentTime := 0; duration := 613;
     showOptions := false; isDragging := false;
     showCustomizeModal := false; showAudioPlayer := false |}.

(** ** [pages/DeepDive.tsx] *)

Module Monolith.

(** [handleDeselectAll] *)
Definition handleDeselectAll : M () :=
  a ← newArray []; setSelectedPapers a.

(** [handleDrag] *)
Definition handleDrag (c : State) (clientX : Q) : M () :=
  r ← progressRef_current;
  match r with
  | Some rect =>
      if isDragging c then
        let x := Math_max 0 (Math_min (clientX - Rect.left rect)
                                      (Rect.width rect))%Q in
        let percentage := (x / Rect.width rect)%Q in
        let newTime := (percentage * duration c)%Q in
        setCurrentTime newTime
      else mret ()
  | None => mret ()
  end.

(** [handleDragEnd] *)
Definition handleDragEnd (c : State) : M () :=
  a ← audioRef_current;
  match a with
  | Some el =>
      if isDragging c then
        let percentage := (currentTime c / duration c)%Q in
        audio_set_currentTime el (percentage * duration c)%Q;;
        setIsDragging false
      else mret ()
  | None => mret ()
  end.

(** The two document listeners installed by the [[isDragging]] effect. *)
Definition handleMouseUp (c : State) : M () :=
  if isDragging c then handleDragEnd c else mret ().

Definition handleMouseMove (c : State) (clientX : Q) : M () :=
  if isDragging c then handleDrag c clientX else mret ().

(** A mounted component: the world, and the render snapshot held by the
    document listeners (the render in which [isDragging] last changed). *)
Record Instance := { world : World; listeners : State }.

(** What reaches the component. *)
Inductive Event :=
| SelectAllChange
| PaperCheckboxChange (paperId : jsstring)
| DeselectAllClick
| InputChange (value : jsstring)
| SendMessage
| ChatSettled (submitted : State) (r : FetchResult)
| ProgressClick (clientX : Q)
| ProgressMouseDown
| DocumentMouseMove (clientX : Q)
| DocumentMouseUp
| AudioTimeUpdate
| AudioLoadedMetadata
| PapersFetched (data : list Paper.t).

(** The closure an event runs: handlers passed as props are those of the last
    render [c]; the document listeners are those of the snapshot [ls]; the
    continuation of a chat request is that of the render that submitted. *)
Definition handler (c ls : State) (ev : Event) : M () :=
  match ev with
  | SelectAllChange => handleSelectAll c
  | PaperCheckboxChange paperId => handlePaperSelect paperId
  | DeselectAllClick => handleDeselectAll
  | InputChange value => setInputMessage value
  | SendMessage => handleSendMessage c
  | ChatSettled submitted r => handleSendMessage_settled submitted r
  | ProgressClick clientX => handleProgressClick c clientX
  | ProgressMouseDown => handleDragStart
  | DocumentMouseMove clientX => handleMouseMove ls clientX
  | DocumentMouseUp => handleMouseUp ls
  | AudioTimeUpdate => onTimeUpdate c
  | AudioLoadedMetadata => onLoadedMetadata
  | PapersFetched data => onPapersFetched data
  end.

(** Re-render after an event and run the effects whose dependencies changed
    with respect to the previous render [prev]:

    - [useEffect(() => { setMessages([]) }, [selectedPapers])]
      ("Clear chat when selected papers change");
    - [useEffect(() => { ...addEventListener... }, [isDragging])], which
      replaces the document listeners by those of this render.

    The remaining effects only scroll the chat container.  The update made
    by the first effect causes one more render, in which neither dependency
    has changed. *)
Definition commit (prev ls : State) (w : World) : Instance :=
  let rendered := state w in
  {| world :=
       if (ref (selectedPapers prev) =? ref (selectedPapers rendered))%nat
       then w else exec (setMessages []) w;
     listeners :=
       if eqb (isDragging prev) (isDragging rendered) then ls else rendered |}.

Definition dispatch (ev : Event) (i : Instance) : Instance :=
  let c := state (world i) in
  commit c (listeners i) (exec (handler c (listeners i) ev) (world i)).

Definition run (evs : list Event) (i : Instance) : Instance :=
  foldl (λ i ev, dispatch ev i) i evs.

(** The component right after mounting, with the refs as given. *)
Definition mount (audio : option Audio.t) (track : option Rect.t) : Instance :=
  {| world := {| state := initialState; audioRef := audio;
                 progressRef := track; nextRef := 1; log := [] |};
     listeners := initialState |}.

End Monolith.

(** ** [pages/Deepdive/index.tsx] *)

Module Split.

(** [handleDeleteSelected] *)
Definition handleDeleteSelected (c : State) : M () :=
  if (length (elems (selectedPapers c)) =? 0)%nat then mret ()
  else
    setPapersFn (λ prevPapers,
      filter (λ paper, Paper.id paper ∉ elems (selectedPapers c)) prevPapers);;
    a ← newArray []; setSelectedPapers a.

Inductive Event :=
| SelectAllChange
| PaperCheckboxChange (paperId : jsstring)
| DeleteSelectedClick
| InputChange (value : jsstring)
| SendMessage
| ChatSettled (submitted : State) (r : FetchResult)
| ProgressClick (clientX : Q)
| ProgressMouseDown
| AudioTimeUpdate
| AudioLoadedMetadata
| PapersFetched (data : list Paper.t).

Definition handler (c : State) (ev : Event) : M () :=
  match ev with
  | SelectAllChange => handleSelectAll c
  | PaperCheckboxChange paperId => handlePaperSelect paperId
  | DeleteSelectedClick => handleDeleteSelected c
  | InputChange value => setInputMessage value
  | SendMessage => handleSendMessage c
  | ChatSettled submitted r => handleSendMessage_settled submitted r
  | ProgressClick clientX => handleProgressClick c clientX
  | ProgressMouseDown => handleDragStart
  | AudioTimeUpdate => onTimeUpdate c
  | AudioLoadedMetadata => onLoadedMetadata
  | PapersFetched data => onPapersFetched data
  end.

(** This file declares a single effect, the fetch of the papers on mount, so
    a re-render changes nothing further. *)
Definition dispatch (ev : Event) (w : World) : World :=
  exec (handler (state w) ev) w.

Definition run (evs : list Event) (w : World) : World :=
  foldl (λ w ev, dispatch ev w) w evs.

(** The component right after mounting.  [progressRef] is created here but
    never passed to the [Studio] child that renders the track, so its
    [current] stays [null]. *)
Definition mount (audio : option Audio.t) : World :=
  {| state := initialState; audioRef := audio; progressRef := None;
     nextRef := 1; log := [] |}.

End Split.

(** ** Vocabulary of the properties *)

(** How many times [x] occurs in a sequence of toggled ids. *)
Definition timesToggled (x : jsstring) (ids : list jsstring) : nat :=
  length (filter (λ y, y = x) ids).

(** The selection after toggling the ids of [ids] in order. *)
Definition toggleAll (ids : list jsstring) (sel : list jsstring)
  : list jsstring :=
  foldl (λ sel id, togglePaper id sel) sel ids.

(** Every selected id is the id of a paper of the loaded collection. *)
Definition selectionValid (s : State) : Prop :=
  Forall (λ id, id ∈ Paper.id <$> papers s) (elems (selectedPapers s)).

#[global] Instance selectionValid_dec s : Decision (selectionValid s).
Proof. unfold selectionValid. apply _. Defined.

(** The array held in [selectedPapers] was allocated before the next one
    will be. *)
Definition refsFresh (w : World) : Prop :=
  ref (selectedPapers (state w)) < nextRef w.

(** The media-position writes of a trace. *)
Definition mediaSeeks (l : list Effect) : list Q :=
  omap (λ e, match e with MediaSeek t => Some t | _ => None end) l.

(** The chat requests of a trace. *)
Definition chatRequests (l : list Effect) : list ChatMessage :=
  omap (λ e, match e with ChatRequest b => Some b | _ => None end) l.

(** [clamp(v, 0, 1)] *)
Definition clamp01 (v : Q) : Q := Math_max 0 (Math_min v 1).

(** The displayed time [handleDrag] computes for a pointer at [clientX] over
    the track [rect], with the duration [d] of its closure: the offset is
    clamped into the track, then scaled. *)
Definition dragTime (rect : Rect.t) (d : Q) (clientX : Q) : Q :=
  (Math_max 0 (Math_min (clientX - Rect.left rect) (Rect.width rect))
   / Rect.width rect * d)%Q.

(** A whole drag: the button goes down on the track, the pointer moves
    through [moves], the button is released. *)
Definition dragInteraction (moves : list Q) : list Monolith.Event :=
  Monolith.ProgressMouseDown
    :: (Monolith.DocumentMouseMove <$> moves) ++ [Monolith.DocumentMouseUp].

(** The events of [DeepDive.tsx] that store a new selection. *)
Definition changesSelection (ev : Monolith.Event) : Prop :=
  match ev with
  | Monolith.SelectAllChange | Monolith.PaperCheckboxChange _
  | Monolith.DeselectAllClick => True
  | _ => False
  end.

(** A paper record with the given id, for the scenarios. *)
Definition paperWithId (i : jsstring) : Paper.t :=
  Paper.mk i [] [] [] 0 [] [] 0 [].

(** ** Display helpers of the child components

    [formatTime] is declared in [DeepDive.tsx] and again in the [Studio]
    component; [truncateText] and [formatPaperInfo] belong to the [Sources]
    component. *)











(** ** What the render derives from the state *)

(** The [checked] prop of the "Select All" checkbox. *)
Definition selectAllChecked (s : State) : bool :=
  (length (elems (selectedPapers s)) =? length (papers s))%nat.

(** The papers whose overview the chat column shows:
    [papers.filter((paper) => selectedPapers.includes(paper.id))]. *)
Definition overviewPapers (s : State) : list Paper.t :=
  filter (λ paper, Paper.id paper ∈ elems (selectedPapers s)) (papers s).

(** ** Vocabulary of the further properties *)


(** The state a well-behaved session keeps: the loaded papers have distinct
    ids, no id is selected twice, and every selected id is loaded. *)
Definition selectionWellFormed (s : State) : Prop :=
  NoDup (Paper.id <$> papers s)
  ∧ NoDup (elems (selectedPapers s))
  ∧ selectionValid s.

(** The events the rendered page of [Deepdive/index.tsx] can deliver in the
    world [w] once the papers are loaded: the checkbox of a listed paper, and
    everything else except a second arrival of the papers. *)
Definition offered (w : World) (ev : Split.Event) : Prop :=
  match ev with
  | Split.PaperCheckboxChange paperId =>
      paperId ∈ Paper.id <$> papers (state w)
  | Split.PapersFetched _ => False
  | _ => True
  end.

Fixpoint offeredAll (evs : list Split.Event) (w : World) : Prop :=
  match evs with
  | [] => True
  | ev :: evs' => offered w ev ∧ offeredAll evs' (Split.dispatch ev w)
  end.

(** The document listeners agree with the state on the dragging flag. *)
Definition listenersSynced (i : Monolith.Instance) : Prop :=
  isDragging (Monolith.listeners i) = isDragging (state (Monolith.world i)).

(** [old] has lost no turn in [new], and only its last turn may differ. *)
Definition transcriptKept (old new : list ChatMessage) : Prop :=
  length old ≤ length new
  ∧ take (length old - 1) new = take (length old - 1) old.

(** ** Proof tooling *)

(** Unfold the primitives, the monad, and the handlers down to record
    updates on the world. *)
Ltac unfold_prims :=
  unfold setSelectedPapersFn, setSelectedPapers, setPapers, setPapersFn,
    setMessagesFn, setMessages, setInputMessage, setCurrentTime, setDuration,
    setIsDragging, audio_set_currentTime, fetch_chat, newArray,
    progressRef_current, audioRef_current.

Ltac unfold_monad := unfold exec, mbind, M_bind, mret, M_ret.

Ltac unfold_handlers :=
  unfold handleSelectAll, handlePaperSelect, handleSendMessage,
    handleSendMessage_settled, handleProgressClick, handleDragStart,
    onTimeUpdate, onLoadedMetadata, onPapersFetched,
    Monolith.handleDeselectAll, Monolith.handleMouseMove,
    Monolith.handleMouseUp, Monolith.handleDrag, Monolith.handleDragEnd,
    Split.handleDeleteSelected;
  unfold_prims; unfold_monad.

(** Case analysis on every branch the goal still contains. *)
Ltac case_handler :=
  repeat match goal with
         | |- context [match ?x with _ => _ end] => destruct x eqn:?
         end.

#[global] Arguments togglePaper : simpl never.

(** * Properties *)

(** ** Selection: the array operations *)

Section Toggle.
Implicit Types (id x : jsstring) (sel : list jsstring).

Lemma elem_of_togglePaper id x sel :
  x ∈ togglePaper id sel ↔ (x = id ∧ id ∉ sel) ∨ (x ≠ id ∧ x ∈ sel).
Proof.
  unfold togglePaper. case_bool_decide as Hin.
  - rewrite list_elem_of_filter.
    destruct (decide (x = id)) as [->|]; intuition congruence.
  - rewrite elem_of_app, list_elem_of_singleton.
    destruct (decide (x = id)) as [->|]; intuition congruence.
Qed.

Lemma NoDup_togglePaper id sel : NoDup sel → NoDup (togglePaper id sel).
Proof.
  intros Hnd. unfold togglePaper. case_bool_decide as Hin.
  - by apply list.NoDup_filter.
  - apply list.NoDup_app. split_and!; [done | | apply NoDup_singleton].
    intros x Hx ->%list_elem_of_singleton. done.
Qed.

Lemma togglePaper_twice id x sel :
  x ∈ togglePaper id (togglePaper id sel) ↔ x ∈ sel.
Proof.
  rewrite !elem_of_togglePaper.
  destruct (decide (x = id)) as [->|Hne]; destruct (decide (id ∈ sel));
    intuition congruence.
Qed.

Lemma timesToggled_cons x id ids :
  timesToggled x (id :: ids) =
    if decide (id = x) then S (timesToggled x ids) else timesToggled x ids.
Proof.
  unfold timesToggled. rewrite filter_cons. by case_decide.
Qed.

Lemma NoDup_toggleAll ids sel : NoDup sel → NoDup (toggleAll ids sel).
Proof.
  revert sel. induction ids as [|id ids IH]; intros sel Hnd; [done|].
  apply IH. by apply NoDup_togglePaper.
Qed.

Lemma elem_of_toggleAll ids sel x :
  x ∈ toggleAll ids sel ↔
    xorb (bool_decide (x ∈ sel)) (Nat.odd (timesToggled x ids)) = true.
Proof.
  revert sel. induction ids as [|id ids IH]; intros sel.
  - simpl. rewrite xorb_false_r. by rewrite bool_decide_eq_true.
  - change (toggleAll (id :: ids) sel)
      with (toggleAll ids (togglePaper id sel)).
    rewrite IH, timesToggled_cons. case_decide as Heq.
    + subst id. rewrite Nat.odd_succ, <- Nat.negb_odd.
      assert (bool_decide (x ∈ togglePaper x sel)
              = negb (bool_decide (x ∈ sel))) as ->.
      { apply eq_true_iff_eq. rewrite negb_true_iff, bool_decide_eq_true,
          bool_decide_eq_false, elem_of_togglePaper. intuition congruence. }
      by destruct (bool_decide _), (Nat.odd _).
    + assert (bool_decide (x ∈ togglePaper id sel) = bool_decide (x ∈ sel))
        as ->; [|done].
      apply bool_decide_ext. rewrite elem_of_togglePaper.
      intuition congruence.
Qed.

End Toggle.

(** ** Selection: the handlers *)

Lemma exec_handlePaperSelect paperId w :
  exec (handlePaperSelect paperId) w =
    emit (SetState selectedPapersCell)
      (with_state
         (set_selectedPapers
            {| ref := nextRef w;
               elems := togglePaper paperId (elems (selectedPapers (state w))) |})
         (with_nextRef (S (nextRef w)) w)).
Proof. reflexivity. Qed.

Lemma exec_handleSelectAll c w :
  exec (handleSelectAll c) w =
    emit (SetState selectedPapersCell)
      (with_state
         (set_selectedPapers
            {| ref := nextRef w;
               elems := if (length (elems (selectedPapers c))
                            =? length (papers c))%nat
                        then [] else Paper.id <$> papers c |})
         (with_nextRef (S (nextRef w)) w)).
Proof. unfold handleSelectAll. by destruct (_ =? _)%nat. Qed.

Lemma exec_handleDeleteSelected c w :
  exec (Split.handleDeleteSelected c) w =
    if (length (elems (selectedPapers c)) =? 0)%nat then w
    else
      emit (SetState selectedPapersCell)
        (with_state
           (set_selectedPapers {| ref := nextRef w; elems := [] |})
           (with_nextRef (S (nextRef w))
              (emit (SetState papersCell)
                 (with_state
                    (λ s, set_papers
                            (filter (λ paper, Paper.id paper
                                                ∉ elems (selectedPapers c))
                                    (papers s)) s) w)))).
Proof. unfold Split.handleDeleteSelected. by destruct (_ =? _)%nat. Qed.

Lemma Split_run_cons ev evs w :
  Split.run (ev :: evs) w = Split.run evs (Split.dispatch ev w).
Proof. reflexivity. Qed.

Lemma Split_run_toggles ids w :
  elems (selectedPapers
           (state (Split.run (Split.PaperCheckboxChange <$> ids) w))) =
    toggleAll ids (elems (selectedPapers (state w))).
Proof.
  revert w. induction ids as [|id ids IH]; intros w; [done|].
  rewrite fmap_cons, Split_run_cons, IH. reflexivity.
Qed.

(** C6. [handleSelectAll] is a toggle between none and all: when the size of
    the selection equals the number of papers it stores the empty array,
    otherwise the ids of all papers; and on the collection [p1, p2], after
    [toggle("p1"); toggle("p2")] has selected both, it leaves the selection
    empty. *)
Theorem select_all_is_a_toggle (w : World) :
  elems (selectedPapers (state (Split.dispatch Split.SelectAllChange w))) =
    (if (length (elems (selectedPapers (state w)))
         =? length (papers (state w)))%nat
     then [] else Paper.id <$> papers (state w))
  ∧ let loaded :=
      Split.run [Split.PapersFetched [paperWithId (js "p1");
                                      paperWithId (js "p2")];
                 Split.PaperCheckboxChange (js "p1");
                 Split.PaperCheckboxChange (js "p2")] (Split.mount None) in
    elems (selectedPapers (state loaded)) = [js "p1"; js "p2"]
    ∧ elems (selectedPapers
               (state (Split.dispatch Split.SelectAllChange loaded))) = [].
Proof.
  split.
  - unfold Split.dispatch. simpl Split.handler.
    by rewrite exec_handleSelectAll.
  - by vm_compute.
Qed.

(** C7. Starting from the empty selection, after any sequence of toggles the
    selection holds no id twice and holds exactly the ids toggled an odd
    number of times; and from any state, toggling an id twice in succession
    gives back a selection with the same members. *)
Theorem toggle_sequence_parity (w : World) (ids : list jsstring) :
  elems (selectedPapers (state w)) = [] →
  let sel :=
    elems (selectedPapers
             (state (Split.run (Split.PaperCheckboxChange <$> ids) w))) in
  NoDup sel
  ∧ (∀ x, x ∈ sel ↔ Nat.odd (timesToggled x ids) = true)
  ∧ (∀ (w' : World) (id x : jsstring),
        x ∈ elems (selectedPapers
                     (state (Split.run [Split.PaperCheckboxChange id;
                                        Split.PaperCheckboxChange id] w')))
        ↔ x ∈ elems (selectedPapers (state w'))).
Proof.
  intros Hempty sel. subst sel. rewrite Split_run_toggles, Hempty.
  split_and!.
  - apply NoDup_toggleAll, NoDup_nil_2.
  - intros x. rewrite elem_of_toggleAll.
    rewrite bool_decide_eq_false_2 by apply not_elem_of_nil. done.
  - intros w' id x.
    change [Split.PaperCheckboxChange id; Split.PaperCheckboxChange id]
      with (Split.PaperCheckboxChange <$> [id; id]).
    rewrite Split_run_toggles. apply togglePaper_twice.
Qed.

Lemma toggle_sequence_parity_witness :
  elems (selectedPapers (state (Split.mount None))) = []
  ∧ ∀ x, x ∈ elems (selectedPapers
                      (state (Split.run
                                (Split.PaperCheckboxChange
                                   <$> [js "p1"; js "p2"; js "p1"])
                                (Split.mount None))))
         ↔ Nat.odd (timesToggled x [js "p1"; js "p2"; js "p1"]) = true.
Proof.
  split; [reflexivity|].
  intros x.
  exact (proj1 (proj2 (toggle_sequence_parity (Split.mount None)
                         [js "p1"; js "p2"; js "p1"] eq_refl)) x).
Defined.

Lemma selectionValid_nil s :
  elems (selectedPapers s) = [] → selectionValid s.
Proof. unfold selectionValid. intros ->. constructor. Qed.

Lemma selectionValid_toggle w id :
  selectionValid (state w) →
  id ∈ Paper.id <$> papers (state w) →
  selectionValid (state (Split.dispatch (Split.PaperCheckboxChange id) w)).
Proof.
  unfold selectionValid, Split.dispatch. simpl Split.handler.
  rewrite exec_handlePaperSelect. simpl.
  rewrite !list.Forall_forall. intros Hvalid Hid x.
  rewrite elem_of_togglePaper. intros [[-> _]|[_ Hx]]; auto.
Qed.

Lemma selectionValid_selectAll w :
  selectionValid (state (Split.dispatch Split.SelectAllChange w)).
Proof.
  unfold selectionValid, Split.dispatch. simpl Split.handler.
  rewrite exec_handleSelectAll. simpl.
  destruct (_ =? _)%nat; [constructor|].
  by apply list.Forall_forall.
Qed.

Lemma selectionValid_delete w :
  selectionValid (state w) →
  selectionValid (state (Split.dispatch Split.DeleteSelectedClick w)).
Proof.
  intros Hvalid. unfold Split.dispatch. simpl Split.handler.
  rewrite exec_handleDeleteSelected.
  destruct (_ =? _)%nat; [done|]. by apply selectionValid_nil.
Qed.

(** C8, as the code has it.  The invariant "every selected id is the id of a
    loaded paper" is kept by select-all and by the removal of the selected
    papers in every state, by the explicit clear of [DeepDive.tsx], and by
    the toggle of an id that belongs to a loaded paper; and removing a
    non-empty selection drops exactly the selected papers from the collection
    and empties the selection in the same update. *)
Theorem selection_invariant_preserved (w : World) :
  selectionValid (state w) →
  selectionValid (state (Split.dispatch Split.SelectAllChange w))
  ∧ selectionValid (state (Split.dispatch Split.DeleteSelectedClick w))
  ∧ (∀ id, id ∈ Paper.id <$> papers (state w) →
       selectionValid
         (state (Split.dispatch (Split.PaperCheckboxChange id) w)))
  ∧ (elems (selectedPapers (state w)) ≠ [] →
       let w' := Split.dispatch Split.DeleteSelectedClick w in
       papers (state w') =
         filter (λ paper, Paper.id paper ∉ elems (selectedPapers (state w)))
                (papers (state w))
       ∧ elems (selectedPapers (state w')) = [])
  ∧ (∀ i : Monolith.Instance,
       selectionValid
         (state (Monolith.world
                   (Monolith.dispatch Monolith.DeselectAllClick i)))).
Proof.
  intros Hvalid. split_and!.
  - apply selectionValid_selectAll.
  - by apply selectionValid_delete.
  - intros id Hid. by apply selectionValid_toggle.
  - intros Hne. unfold Split.dispatch. simpl Split.handler.
    rewrite exec_handleDeleteSelected.
    destruct (elems (selectedPapers (state w))) as [|x sel] eqn:Hsel; done.
  - intros i. apply selectionValid_nil.
    unfold Monolith.dispatch, Monolith.commit. simpl.
    by destruct (_ =? _)%nat.
Qed.

Lemma selection_invariant_preserved_witness :
  let w := Split.run [Split.PapersFetched [paperWithId (js "p1");
                                           paperWithId (js "p2")];
                      Split.PaperCheckboxChange (js "p1")]
                     (Split.mount None) in
  selectionValid (state w)
  ∧ js "p2" ∈ Paper.id <$> papers (state w)
  ∧ elems (selectedPapers (state w)) ≠ []
  ∧ selectionValid
      (state (Split.dispatch (Split.PaperCheckboxChange (js "p2")) w))
  ∧ elems (selectedPapers
             (state (Split.dispatch Split.DeleteSelectedClick w))) = [].
Proof.
  intros w.
  assert (Hvalid : selectionValid (state w)) by (vm_compute; by repeat constructor).
  assert (Hid : js "p2" ∈ Paper.id <$> papers (state w))
    by (vm_compute; by repeat constructor).
  assert (Hne : elems (selectedPapers (state w)) ≠ []) by (by vm_compute).
  pose proof (selection_invariant_preserved w Hvalid) as (_ & _ & Ht & Hd & _).
  split_and!; [done | done | done | by apply Ht | by apply Hd].
Defined.

(** C8, as stated, fails: the toggle takes any id.  With the single paper
    [p1] loaded and nothing selected the invariant holds; toggling an id that
    no loaded paper carries selects it, and the invariant is gone. *)
Lemma toggle_of_unknown_id_breaks_invariant :
  let w := Split.run [Split.PapersFetched [paperWithId (js "p1")]]
                     (Split.mount None) in
  selectionValid (state w)
  ∧ ¬ selectionValid
        (state (Split.dispatch (Split.PaperCheckboxChange (js "ghost")) w)).
Proof.
  split.
  - by apply selectionValid_nil.
  - intros Hvalid. vm_compute in Hvalid.
    apply Forall_cons_1 in Hvalid as [Hin _].
    apply list_elem_of_singleton in Hin. discriminate Hin.
Qed.

(** ** The transcript under selection changes *)

(** In [DeepDive.tsx] every handler that stores a selection stores a newly
    allocated array, so the [[selectedPapers]] effect runs and the transcript
    is emptied. *)
Lemma Monolith_selection_change_clears_transcript i ev :
  refsFresh (Monolith.world i) →
  changesSelection ev →
  messages (state (Monolith.world (Monolith.dispatch ev i))) = [].
Proof.
  unfold refsFresh. intros Hfresh Hev.
  assert ((ref (selectedPapers (state (Monolith.world i)))
           =? nextRef (Monolith.world i))%nat = false) as Hne
    by (apply Nat.eqb_neq; lia).
  destruct ev; try contradiction; unfold Monolith.dispatch, Monolith.commit;
    simpl Monolith.handler.
  - rewrite exec_handleSelectAll. simpl. by rewrite Hne.
  - rewrite exec_handlePaperSelect. simpl. by rewrite Hne.
  - simpl. by rewrite Hne.
Qed.

(** Freshness of the stored array is kept by every event, and holds when the
    component mounts. *)
Lemma refsFresh_mount audio track :
  refsFresh (Monolith.world (Monolith.mount audio track)).
Proof. unfold refsFresh. simpl. lia. Qed.

Lemma refsFresh_dispatch i ev :
  refsFresh (Monolith.world i) →
  refsFresh (Monolith.world (Monolith.dispatch ev i)).
Proof.
  unfold refsFresh. intros Hfresh.
  destruct ev; unfold Monolith.dispatch, Monolith.commit;
    simpl Monolith.handler; unfold_handlers;
    case_handler; simpl in *; rewrite ?Nat.eqb_refl in *; simplify_eq; lia.
Qed.

Lemma refsFresh_run evs i :
  refsFresh (Monolith.world i) →
  refsFresh (Monolith.world (Monolith.run evs i)).
Proof.
  revert i. induction evs as [|ev evs IH]; intros i Hfresh; [done|].
  apply IH. by apply refsFresh_dispatch.
Qed.

(** In [Deepdive/index.tsx] no selection handler touches the transcript, and
    no effect does it for them. *)
Lemma Split_selection_change_keeps_transcript w ev :
  match ev with
  | Split.SelectAllChange | Split.PaperCheckboxChange _
  | Split.DeleteSelectedClick =>
      messages (state (Split.dispatch ev w)) = messages (state w)
  | _ => True
  end.
Proof.
  destruct ev; try exact I; unfold Split.dispatch; simpl Split.handler.
  - by rewrite exec_handleSelectAll.
  - by rewrite exec_handlePaperSelect.
  - rewrite exec_handleDeleteSelected. by destruct (_ =? _)%nat.
Qed.

(** C1, on [Deepdive/index.tsx].  With [p1] and [p2] loaded, [p1] selected
    and the message "hello" submitted, the transcript holds one turn; it
    still holds that turn after a toggle, after select-all and after the
    removal of the selected papers, whereas the same events on
    [DeepDive.tsx] leave it empty. *)
Theorem split_selection_change_leaves_transcript :
  let hello := {| message := js "hello"; response := [] |} in
  let w :=
    Split.run [Split.PapersFetched [paperWithId (js "p1");
                                    paperWithId (js "p2")];
               Split.PaperCheckboxChange (js "p1");
               Split.InputChange (js "hello");
               Split.SendMessage] (Split.mount None) in
  let i :=
    Monolith.run [Monolith.PapersFetched [paperWithId (js "p1");
                                          paperWithId (js "p2")];
                  Monolith.PaperCheckboxChange (js "p1");
                  Monolith.InputChange (js "hello");
                  Monolith.SendMessage] (Monolith.mount None None) in
  messages (state w) = [hello]
  ∧ messages (state (Split.dispatch
                       (Split.PaperCheckboxChange (js "p2")) w)) = [hello]
  ∧ messages (state (Split.dispatch Split.SelectAllChange w)) = [hello]
  ∧ messages (state (Split.dispatch Split.DeleteSelectedClick w)) = [hello]
  ∧ messages (state (Monolith.world i)) = [hello]
  ∧ messages (state (Monolith.world
                       (Monolith.dispatch
                          (Monolith.PaperCheckboxChange (js "p2")) i))) = []
  ∧ messages (state (Monolith.world
                       (Monolith.dispatch Monolith.SelectAllChange i))) = [].
Proof. by vm_compute. Qed.

(** ** Chat *)

Lemma replaceLast_snoc (x last : ChatMessage) (init : list ChatMessage) :
  replaceLast x (init ++ [last]) = init ++ [x].
Proof.
  unfold replaceLast. rewrite imap_app. f_equal.
  - etrans; [|apply (list_fmap_id init)]. rewrite <- imap_const.
    apply imap_ext. intros idx msg Hidx%lookup_lt_Some.
    rewrite length_app. simpl.
    destruct (Z.eqb_spec (Z.of_nat idx) (Z.of_nat (length init + 1) - 1));
      [lia | done].
  - simpl. rewrite length_app. simpl.
    destruct (Z.eqb_spec (Z.of_nat (length init + 0))
                         (Z.of_nat (length init + 1) - 1)); [done | lia].
Qed.

Lemma replaceLast_nil (x : ChatMessage) : replaceLast x [] = [].
Proof. reflexivity. Qed.

Lemma replaceLast_length (x : ChatMessage) (prev : list ChatMessage) :
  length (replaceLast x prev) = length prev.
Proof. apply length_imap. Qed.

(** What the continuation stores, whichever component runs it: the effect of
    the re-render of [DeepDive.tsx] does not fire, since the selection is the
    same array as before. *)
Lemma settled_messages submitted r :
  ∃ x, message x = inputMessage submitted
       ∧ response x = match r with
                      | Response true (Some text) => text
                      | _ => fallbackText
                      end
       ∧ (∀ w, messages (state (Split.dispatch
                                  (Split.ChatSettled submitted r) w))
               = replaceLast x (messages (state w)))
       ∧ (∀ i, messages (state (Monolith.world
                                  (Monolith.dispatch
                                     (Monolith.ChatSettled submitted r) i)))
               = replaceLast x (messages (state (Monolith.world i)))).
Proof.
  destruct r as [|[] [text|]];
    (eexists {| message := _; response := _ |}; split_and!;
     [reflexivity | reflexivity | reflexivity |]);
    intros i; unfold Monolith.dispatch, Monolith.commit; simpl;
    by rewrite Nat.eqb_refl.
Qed.

(** C4. On a non-empty transcript [init ++ [last]], a chat request that
    resolves with the text [text] leaves [init] as it is and puts [text] in
    the response of the turn at the last position; a request that fails (the
    fetch rejects, the status is not a success, or the body does not parse)
    puts the fixed apology there.  The turn is found by position; its message
    field is overwritten with the text the resolving request was submitted
    with.  Both components behave so. *)
Theorem chat_settled_fills_last_turn
    (submitted : State) (init : list ChatMessage) (last : ChatMessage)
    (w : World) (i : Monolith.Instance) :
  messages (state w) = init ++ [last] →
  messages (state (Monolith.world i)) = init ++ [last] →
  let turn text := {| message := inputMessage submitted; response := text |} in
  let sorry := js "Sorry, there was an error processing your message." in
  let split r := messages (state (Split.dispatch
                                    (Split.ChatSettled submitted r) w)) in
  let mono r := messages (state (Monolith.world
                                   (Monolith.dispatch
                                      (Monolith.ChatSettled submitted r) i))) in
  (∀ text, split (Response true (Some text)) = init ++ [turn text]
           ∧ mono (Response true (Some text)) = init ++ [turn text])
  ∧ (split NetworkError = init ++ [turn sorry]
     ∧ mono NetworkError = init ++ [turn sorry])
  ∧ (∀ body, split (Response false body) = init ++ [turn sorry]
             ∧ mono (Response false body) = init ++ [turn sorry])
  ∧ (split (Response true None) = init ++ [turn sorry]
     ∧ mono (Response true None) = init ++ [turn sorry]).
Proof.
  intros Hw Hi turn sorry split mono.
  assert (Hall : ∀ r,
    split r = init ++ [turn match r with
                            | Response true (Some text) => text
                            | _ => fallbackText
                            end]
    ∧ mono r = init ++ [turn match r with
                             | Response true (Some text) => text
                             | _ => fallbackText
                             end]).
  { intros r. subst split mono. cbv beta.
    destruct (settled_messages submitted r) as ([m t] & Hm & Ht & Hs & Hmo).
    simpl in Hm, Ht. subst m t.
    rewrite Hs, Hmo, Hw, Hi, !replaceLast_snoc. done. }
  split; [|split; [|split]].
  - intros text. apply (Hall (Response true (Some text))).
  - apply (Hall NetworkError).
  - intros body. apply (Hall (Response false body)).
  - apply (Hall (Response true None)).
Qed.

Lemma chat_settled_fills_last_turn_witness :
  let hello := {| message := js "hello"; response := [] |} in
  let w := Split.run [Split.InputChange (js "hello"); Split.SendMessage]
                     (Split.mount None) in
  let i := Monolith.run [Monolith.InputChange (js "hello");
                         Monolith.SendMessage] (Monolith.mount None None) in
  messages (state w) = [] ++ [hello]
  ∧ messages (state (Monolith.world i)) = [] ++ [hello]
  ∧ messages (state (Split.dispatch
                       (Split.ChatSettled (set_inputMessage (js "hello")
                                             initialState) NetworkError) w))
    = [{| message := js "hello";
          response :=
            js "Sorry, there was an error processing your message." |}].
Proof.
  intros hello w i.
  assert (Hw : messages (state w) = [] ++ [hello]) by reflexivity.
  assert (Hi : messages (state (Monolith.world i)) = [] ++ [hello])
    by reflexivity.
  split_and!; [exact Hw | exact Hi |].
  exact (proj1 (proj1 (proj2 (chat_settled_fills_last_turn
                                (set_inputMessage (js "hello") initialState)
                                [] hello w i Hw Hi)))).
Defined.

(** C9. When the transcript is empty at the moment a chat request settles,
    with a response or with a failure, it stays empty: mapping over no turns
    creates none, and the text is dropped. *)
Theorem chat_settled_on_empty_transcript
    (submitted : State) (r : FetchResult)
    (w : World) (i : Monolith.Instance) :
  messages (state w) = [] →
  messages (state (Monolith.world i)) = [] →
  messages (state (Split.dispatch (Split.ChatSettled submitted r) w)) = []
  ∧ messages (state (Monolith.world
                       (Monolith.dispatch
                          (Monolith.ChatSettled submitted r) i))) = [].
Proof.
  intros Hw Hi.
  destruct (settled_messages submitted r) as (x & _ & _ & Hs & Hm).
  by rewrite Hs, Hm, Hw, Hi.
Qed.

Lemma chat_settled_on_empty_transcript_witness :
  let submitted := set_inputMessage (js "hello") initialState in
  let i := Monolith.run [Monolith.InputChange (js "hello");
                         Monolith.SendMessage;
                         Monolith.DeselectAllClick]
                        (Monolith.mount None None) in
  messages (state (Split.mount None)) = []
  ∧ messages (state (Monolith.world i)) = []
  ∧ messages (state (Monolith.world
                       (Monolith.dispatch
                          (Monolith.ChatSettled submitted
                             (Response true (Some (js "hi")))) i))) = [].
Proof.
  intros submitted i.
  assert (Hw : messages (state (Split.mount None)) = []) by reflexivity.
  assert (Hi : messages (state (Monolith.world i)) = []) by reflexivity.
  split_and!; [exact Hw | exact Hi |].
  exact (proj2 (chat_settled_on_empty_transcript submitted
                  (Response true (Some (js "hi")))
                  (Split.mount None) i Hw Hi)).
Defined.

Lemma trim_blank_examples :
  trim (js "") = [] ∧ trim (js "   ") = []
  ∧ trim (js " hello ") = js "hello".
Proof. by vm_compute. Qed.

(** C5. Submitting is governed by the input buffer [text].  When [text]
    trims to the empty string nothing happens: the world, trace included, is
    unchanged.  Otherwise one turn with message [text] and empty response is
    appended to the transcript, the input buffer is emptied, and the trace
    grows by exactly the two state updates followed by one chat request that
    carries [text]. *)
Theorem submit_appends_then_requests (w : World) :
  let text := inputMessage (state w) in
  let w' := Split.dispatch Split.SendMessage w in
  match trim text with
  | [] => w' = w
  | _ :: _ =>
      messages (state w') =
        messages (state w) ++ [{| message := text; response := [] |}]
      ∧ inputMessage (state w') = []
      ∧ log w' = log w ++ [SetState messagesCell; SetState inputMessageCell;
                           ChatRequest {| message := text; response := [] |}]
      ∧ chatRequests (log w') =
          chatRequests (log w) ++ [{| message := text; response := [] |}]
  end.
Proof.
  intros text w'. subst text w'.
  unfold Split.dispatch. simpl Split.handler. unfold handleSendMessage.
  destruct (trim (inputMessage (state w))) as [|c s].
  - by destruct w.
  - unfold_prims. unfold_monad. simpl.
    assert (Hlog : ∀ a b c : Effect,
               ((log w ++ [a]) ++ [b]) ++ [c] = log w ++ [a; b; c])
      by (intros; by rewrite <- !app_assoc).
    rewrite Hlog. split_and!; try done.
    unfold chatRequests. by rewrite omap_app.
Qed.

(** ** Seeking by click *)

Lemma clamp01_id (v : Q) : (0 <= v)%Q → (v <= 1)%Q → clamp01 v = v.
Proof.
  intros H0 H1. unfold clamp01, Math_min, Math_max.
  apply Qle_bool_iff in H1 as ->. by apply Qle_bool_iff in H0 as ->.
Qed.

Lemma exec_handleProgressClick c clientX w rect el :
  progressRef w = Some rect → audioRef w = Some el → isDragging c = false →
  let newTime :=
    ((clientX - Rect.left rect) / Rect.width rect * duration c)%Q in
  exec (handleProgressClick c clientX) w =
    emit (MediaSeek newTime)
      (with_audio (Some {| Audio.currentTime := newTime;
                           Audio.duration := Audio.duration el |})
         (emit (SetState currentTimeCell)
            (with_state (set_currentTime newTime) w))).
Proof.
  intros Hp Ha Hd. unfold handleProgressClick.
  unfold_prims. unfold_monad. rewrite Hp, Hd. simpl. by rewrite Ha.
Qed.

(** X4. Inside the track the click handler agrees with the clamped formula,
    and it hands the media element the value it displays: zero at the left
    end, the duration at the right end. *)
Lemma progress_click_within_track c clientX w rect el :
  progressRef w = Some rect → audioRef w = Some el → isDragging c = false →
  (0 < Rect.width rect)%Q →
  (Rect.left rect <= clientX)%Q →
  (clientX <= Rect.left rect + Rect.width rect)%Q →
  let w' := exec (handleProgressClick c clientX) w in
  let p := clamp01 ((clientX - Rect.left rect) / Rect.width rect) in
  (currentTime (state w') == p * duration c)%Q
  ∧ log w' = log w ++ [SetState currentTimeCell;
                       MediaSeek (currentTime (state w'))]
  ∧ (clientX == Rect.left rect → currentTime (state w') == 0)%Q
  ∧ (clientX == Rect.left rect + Rect.width rect →
     currentTime (state w') == duration c)%Q.
Proof.
  intros Hp Ha Hd Hw Hl Hr w' p. subst w' p.
  rewrite (exec_handleProgressClick _ _ _ _ _ Hp Ha Hd). simpl.
  assert (Hne : ¬ (Rect.width rect == 0)%Q)
    by (intros Heq; rewrite Heq in Hw; by apply Qlt_irrefl in Hw).
  rewrite clamp01_id.
  - split_and!.
    + reflexivity.
    + by rewrite <- app_assoc.
    + intros ->. field. done.
    + intros ->. field. done.
  - apply Qle_shift_div_l; [done|]. rewrite Qmult_0_l.
    by apply (Qplus_le_r _ _ (Rect.left rect)); ring_simplify.
  - apply Qle_shift_div_r; [done|]. rewrite Qmult_1_l.
    by apply (Qplus_le_r _ _ (Rect.left rect)); ring_simplify.
Qed.

(** C3, where the code departs from it.  The track is 100 wide starting at
    0 and the duration is the initial 613.  A click delivered 8 past the
    right end (on the part of the progress dot that hangs over the end of
    the track) displays and writes to the media 662.04, which is beyond the
    duration, where the clamped formula gives 613; a click 8 before the left
    end displays and writes -49.04, where the clamped formula gives 0. *)
Theorem progress_click_outside_track_is_not_clamped :
  let track := {| Rect.left := 0; Rect.width := 100 |} in
  let i := Monolith.mount
             (Some {| Audio.currentTime := 0; Audio.duration := 613 |})
             (Some track) in
  let past := Monolith.world (Monolith.dispatch (Monolith.ProgressClick 108) i) in
  let before :=
    Monolith.world (Monolith.dispatch (Monolith.ProgressClick (-8)) i) in
  ((currentTime (state past) == 662.04
    ∧ mediaSeeks (log past) = [currentTime (state past)]
    ∧ clamp01 ((108 - 0) / 100) * 613 == 613
    ∧ ¬ currentTime (state past) <= duration (state past))
   ∧ (currentTime (state before) == -49.04
      ∧ mediaSeeks (log before) = [currentTime (state before)]
      ∧ clamp01 ((-8 - 0) / 100) * 613 == 0
      ∧ ¬ 0 <= currentTime (state before)))%Q.
Proof. by vm_compute. Qed.

(** ** Seeking by drag *)

Lemma Monolith_run_cons ev evs i :
  Monolith.run (ev :: evs) i = Monolith.run evs (Monolith.dispatch ev i).
Proof. reflexivity. Qed.


(** Pressing the button on the track: the flag is raised and, the flag
    having changed, the document listeners are replaced by those of the new
    render. *)
Lemma dispatch_mouse_down i :
  isDragging (state (Monolith.world i)) = false →
  Monolith.dispatch Monolith.ProgressMouseDown i =
    {| Monolith.world :=
         emit (SetState isDraggingCell)
              (with_state (set_isDragging true) (Monolith.world i));
       Monolith.listeners := set_isDragging true (state (Monolith.world i)) |}.
Proof.
  intros Hd. unfold Monolith.dispatch, Monolith.commit. simpl.
  by rewrite Nat.eqb_refl, Hd.
Qed.

(** A pointer move while dragging: only the displayed time changes, and the
    listeners stay those of the render that started the drag. *)
Lemma dispatch_mouse_move i rect clientX :
  isDragging (Monolith.listeners i) = true →
  progressRef (Monolith.world i) = Some rect →
  Monolith.dispatch (Monolith.DocumentMouseMove clientX) i =
    {| Monolith.world :=
         emit (SetState currentTimeCell)
              (with_state
                 (set_currentTime
                    (dragTime rect (duration (Monolith.listeners i)) clientX))
                 (Monolith.world i));
       Monolith.listeners := Monolith.listeners i |}.
Proof.
  intros Hl Hp. unfold Monolith.dispatch, Monolith.commit.
  simpl Monolith.handler.
  unfold Monolith.handleMouseMove, Monolith.handleDrag.
  unfold_prims. unfold_monad. rewrite Hl, Hp. simpl.
  by rewrite Nat.eqb_refl, eqb_reflx.
Qed.


Lemma run_mouse_moves rect (moves : list Q) i :
  isDragging (Monolith.listeners i) = true →
  progressRef (Monolith.world i) = Some rect →
  let i' := Monolith.run (Monolith.DocumentMouseMove <$> moves) i in
  Monolith.listeners i' = Monolith.listeners i
  ∧ audioRef (Monolith.world i') = audioRef (Monolith.world i)
  ∧ progressRef (Monolith.world i') = Some rect
  ∧ isDragging (state (Monolith.world i'))
    = isDragging (state (Monolith.world i))
  ∧ log (Monolith.world i')
    = log (Monolith.world i)
        ++ replicate (length moves) (SetState currentTimeCell)
  ∧ currentTime (state (Monolith.world i'))
    = match list.last moves with
      | Some clientX =>
          dragTime rect (duration (Monolith.listeners i)) clientX
      | None => currentTime (state (Monolith.world i))
      end.
Proof.
  revert i. induction moves as [|clientX moves IH]; intros i Hl Hp.
  - simpl. by rewrite app_nil_r.
  - cbv zeta. rewrite fmap_cons, Monolith_run_cons.
    rewrite (dispatch_mouse_move i rect clientX Hl Hp).
    match goal with
    | |- context [Monolith.run _ ?j] =>
        destruct (IH j) as (IHl & IHa & IHp & IHd & IHlog & IHt); [done..|]
    end.
    rewrite IHl, IHa, IHp, IHd, IHlog, IHt. simpl.
    split_and!; try done.
    + by rewrite <- app_assoc.
    + rewrite last_cons. by destruct (list.last moves).
Qed.


Lemma mediaSeeks_app l1 l2 :
  mediaSeeks (l1 ++ l2) = mediaSeeks l1 ++ mediaSeeks l2.
Proof. apply omap_app. Qed.



(** Clamping the offset into the track and then dividing is the clamped
    fraction of the track. *)
Lemma dragTime_clamped_fraction rect d clientX :
  (0 < Rect.width rect)%Q →
  (dragTime rect d clientX
   == clamp01 ((clientX - Rect.left rect) / Rect.width rect) * d)%Q.
Proof.
  intros Hw. unfold dragTime, clamp01, Math_max, Math_min.
  set (x := (clientX - Rect.left rect)%Q). set (wd := Rect.width rect) in *.
  assert (Hne : ¬ (wd == 0)%Q)
    by (intros Heq; rewrite Heq in Hw; by apply Qlt_irrefl in Hw).
  assert (H1 : Qle_bool x wd = Qle_bool (x / wd) 1).
  { apply eq_true_iff_eq. rewrite !Qle_bool_iff. split; intros H.
    - apply Qle_shift_div_r; [done|]. by rewrite Qmult_1_l.
    - apply (Qmult_le_r _ _ wd) in H; [|done].
      rewrite Qmult_1_l in H. revert H. by field_simplify (x / wd * wd)%Q. }
  assert (H0 : Qle_bool 0 x = Qle_bool 0 (x / wd)).
  { apply eq_true_iff_eq. rewrite !Qle_bool_iff. split; intros H.
    - apply Qle_shift_div_l; [done|]. by rewrite Qmult_0_l.
    - apply (Qmult_le_r _ _ wd) in H; [|done].
      rewrite Qmult_0_l in H. revert H. by field_simplify (x / wd * wd)%Q. }
  rewrite <- H1. destruct (Qle_bool x wd) eqn:Hx.
  - rewrite <- H0. by destruct (Qle_bool 0 x).
  - assert (Hw' : Qle_bool 0 wd = true) by (apply Qle_bool_iff; by apply Qlt_le_weak).
    assert (H1' : Qle_bool 0 1 = true) by done.
    rewrite Hw', H1'. field. done.
Qed.

(** C2, where the code departs from it.  The media reports a duration of 600
    and a position of 120, and the track is 100 wide.  The button goes down
    on the track and the pointer moves to the middle: the displayed time
    becomes 300 and the media position has not been written.  The button is
    released: the media position is written once, and the value written is
    120, the time displayed when the drag began, not 300.  The listener that
    handles the release belongs to the render in which the drag began and
    reads the [currentTime] of that render. *)
Theorem drag_end_writes_the_time_displayed_at_drag_start :
  let i :=
    Monolith.run [Monolith.AudioLoadedMetadata; Monolith.AudioTimeUpdate]
      (Monolith.mount
         (Some {| Audio.currentTime := 120; Audio.duration := 600 |})
         (Some {| Rect.left := 0; Rect.width := 100 |})) in
  let dragged :=
    Monolith.run [Monolith.ProgressMouseDown; Monolith.DocumentMouseMove 50]
                 i in
  let released := Monolith.run (dragInteraction [50%Q]) i in
  (duration (state (Monolith.world i)) == 600
   ∧ currentTime (state (Monolith.world i)) == 120
   ∧ mediaSeeks (log (Monolith.world i)) = []
   ∧ currentTime (state (Monolith.world dragged))
     == clamp01 ((50 - 0) / 100) * 600
   ∧ currentTime (state (Monolith.world dragged)) == 300
   ∧ mediaSeeks (log (Monolith.world dragged)) = []
   ∧ ∃ t, mediaSeeks (log (Monolith.world released)) = [t]
          ∧ t == 120 ∧ ¬ t == 300)%Q.
Proof.
  vm_compute. split_and!; try done. eexists. split_and!; [reflexivity|..];
    by vm_compute.
Qed.

(** ** Releasing the drag without a media element *)

(** C10. When the button is released during a drag and the media element is
    not mounted, nothing happens: [handleDragEnd] returns without writing a
    media position and without lowering the flag, so the whole component is
    as before and is still dragging. *)
Theorem drag_end_without_media_changes_nothing (i : Monolith.Instance) :
  isDragging (state (Monolith.world i)) = true →
  isDragging (Monolith.listeners i) = true →
  audioRef (Monolith.world i) = None →
  exec (Monolith.handleDragEnd (Monolith.listeners i)) (Monolith.world i)
  = Monolith.world i
  ∧ Monolith.dispatch Monolith.DocumentMouseUp i = i
  ∧ isDragging
      (state (Monolith.world (Monolith.dispatch Monolith.DocumentMouseUp i)))
    = true
  ∧ mediaSeeks
      (log (Monolith.world (Monolith.dispatch Monolith.DocumentMouseUp i)))
    = mediaSeeks (log (Monolith.world i)).
Proof.
  intros Hd Hl Ha.
  assert (Hexec : exec (Monolith.handleDragEnd (Monolith.listeners i))
                       (Monolith.world i) = Monolith.world i).
  { unfold Monolith.handleDragEnd. unfold_prims. unfold_monad.
    by rewrite Ha. }
  assert (Hdisp : Monolith.dispatch Monolith.DocumentMouseUp i = i).
  { unfold Monolith.dispatch, Monolith.commit. simpl Monolith.handler.
    unfold Monolith.handleMouseUp. rewrite Hl, Hexec.
    rewrite Nat.eqb_refl, eqb_reflx. by destruct i. }
  by rewrite Hdisp.
Qed.

Lemma drag_end_without_media_changes_nothing_witness :
  let i := Monolith.dispatch Monolith.ProgressMouseDown
             (Monolith.mount None
                (Some {| Rect.left := 0; Rect.width := 100 |})) in
  isDragging (state (Monolith.world i)) = true
  ∧ isDragging (Monolith.listeners i) = true
  ∧ audioRef (Monolith.world i) = None
  ∧ Monolith.dispatch Monolith.DocumentMouseUp i = i.
Proof.
  intros i.
  assert (Hd : isDragging (state (Monolith.world i)) = true) by reflexivity.
  assert (Hl : isDragging (Monolith.listeners i) = true) by reflexivity.
  assert (Ha : audioRef (Monolith.world i) = None) by reflexivity.
  split_and!; [exact Hd | exact Hl | exact Ha |].
  exact (proj1 (proj2 (drag_end_without_media_changes_nothing i Hd Hl Ha))).
Defined.

(** ** Reachable states *)

(** No handler assigns [progressRef], and in [Deepdive/index.tsx] the element
    that renders the track never receives it: there the click handler finds
    [progressRef.current] null in every reachable state and does nothing. *)
Lemma Split_dispatch_progressRef ev w :
  progressRef (Split.dispatch ev w) = progressRef w.
Proof.
  destruct ev; unfold Split.dispatch; simpl Split.handler; unfold_handlers;
    case_handler; simpl in *; congruence.
Qed.

Lemma Split_run_progressRef evs audio :
  progressRef (Split.run evs (Split.mount audio)) = None.
Proof.
  change None with (progressRef (Split.mount audio)).
  generalize (Split.mount audio).
  induction evs as [|ev evs IH]; intros w; [done|].
  rewrite Split_run_cons, IH. apply Split_dispatch_progressRef.
Qed.

(** X5. In every state [Deepdive/index.tsx] reaches from its mount, a click
    on the progress track changes nothing. *)
Lemma Split_progress_click_does_nothing evs audio clientX :
  let w := Split.run evs (Split.mount audio) in
  Split.dispatch (Split.ProgressClick clientX) w = w.
Proof.
  intros w. unfold Split.dispatch. simpl Split.handler.
  unfold handleProgressClick. unfold_prims. unfold_monad.
  subst w. by rewrite Split_run_progressRef.
Qed.

(** X1. In every state [DeepDive.tsx] can reach from its mount, a toggle, a
    select-all or a deselect-all leaves the transcript empty, also when the
    selection it stores has the same members as before. *)
Lemma Monolith_reachable_selection_change_clears_transcript
    evs audio track ev :
  changesSelection ev →
  messages
    (state (Monolith.world
              (Monolith.dispatch ev
                 (Monolith.run evs (Monolith.mount audio track))))) = [].
Proof.
  intros Hev. apply Monolith_selection_change_clears_transcript; [|done].
  apply refsFresh_run, refsFresh_mount.
Qed.

(** * Further properties *)

(** ** The time display *)







(** ** The source list *)





(** ** The selection as the page shows it *)

Lemma selection_within_papers s :
  NoDup (elems (selectedPapers s)) → selectionValid s →
  elems (selectedPapers s) ⊆+ Paper.id <$> papers s.
Proof.
  intros Hnd Hvalid. apply NoDup_submseteq; [done|].
  by apply list.Forall_forall.
Qed.

(** X11. In a state where the loaded papers have distinct ids, no id is
    selected twice and every selected id is loaded, the "Select All" checkbox
    (which compares two lengths) is checked exactly when every loaded paper
    is selected; and the number of selected sources never exceeds the number
    of papers. *)
Theorem select_all_checkbox_means_all_selected (s : State) :
  selectionWellFormed s →
  (selectAllChecked s = true
   ↔ ∀ paper, paper ∈ papers s → Paper.id paper ∈ elems (selectedPapers s))
  ∧ length (elems (selectedPapers s)) ≤ length (papers s).
Proof.
  intros (Hids & Hsel & Hvalid).
  pose proof (selection_within_papers s Hsel Hvalid) as Hsub.
  pose proof (submseteq_length _ _ Hsub) as Hlen.
  rewrite length_fmap in Hlen. split; [|done].
  unfold selectAllChecked. rewrite Nat.eqb_eq. split.
  - intros Heq paper Hin.
    assert (Hperm : elems (selectedPapers s) ≡ₚ Paper.id <$> papers s)
      by (apply submseteq_length_Permutation;
          [done | rewrite length_fmap; lia]).
    rewrite Hperm. by apply list_elem_of_fmap_2.
  - intros Hall.
    assert (Hsup : Paper.id <$> papers s ⊆+ elems (selectedPapers s)).
    { apply NoDup_submseteq; [done|].
      intros x (paper & -> & Hin)%list_elem_of_fmap. by apply Hall. }
    apply submseteq_length in Hsup. rewrite length_fmap in Hsup. lia.
Qed.

Lemma select_all_checkbox_means_all_selected_witness :
  let s := state (Split.run [Split.PapersFetched [paperWithId (js "p1");
                                                  paperWithId (js "p2")];
                             Split.PaperCheckboxChange (js "p2");
                             Split.PaperCheckboxChange (js "p1")]
                            (Split.mount None)) in
  selectionWellFormed s
  ∧ length (elems (selectedPapers s)) ≤ length (papers s).
Proof.
  intros s.
  assert (H : selectionWellFormed s).
  { split_and!.
    - apply (bool_decide_unpack _). by vm_compute.
    - apply (bool_decide_unpack _). by vm_compute.
    - apply (bool_decide_unpack _). by vm_compute. }
  split; [exact H|].
  exact (proj2 (select_all_checkbox_means_all_selected s H)).
Defined.

(** X16. In such a state the chat column shows the overview of exactly the
    selected papers, each once, and in the order of the collection, whatever
    the order in which they were selected. *)
Theorem overview_shows_the_selected_papers (s : State) :
  selectionWellFormed s →
  Paper.id <$> overviewPapers s ≡ₚ elems (selectedPapers s)
  ∧ overviewPapers s `sublist_of` papers s
  ∧ length (overviewPapers s) = length (elems (selectedPapers s)).
Proof.
  intros (Hids & Hsel & Hvalid).
  assert (Hsublist : overviewPapers s `sublist_of` papers s)
    by apply sublist_filter.
  assert (Hperm : Paper.id <$> overviewPapers s ≡ₚ elems (selectedPapers s)).
  { apply NoDup_Permutation; [|done|].
    - eapply sublist_NoDup; [exact Hids|]. by apply fmap_sublist.
    - intros x. unfold overviewPapers.
      rewrite list_elem_of_fmap. split.
      + intros (paper & -> & [Hin _]%list_elem_of_filter). done.
      + intros Hx. unfold selectionValid in Hvalid.
        rewrite list.Forall_forall in Hvalid.
        destruct (proj1 (list_elem_of_fmap _ _ _) (Hvalid x Hx))
          as (paper & -> & Hin).
        exists paper. split; [done|]. by apply list_elem_of_filter. }
  split_and!; [done | done |].
  rewrite <- Hperm. by rewrite length_fmap.
Qed.

Lemma overview_shows_the_selected_papers_witness :
  let s := state (Split.run [Split.PapersFetched [paperWithId (js "p1");
                                                  paperWithId (js "p2")];
                             Split.PaperCheckboxChange (js "p2");
                             Split.PaperCheckboxChange (js "p1")]
                            (Split.mount None)) in
  selectionWellFormed s
  ∧ overviewPapers s = [paperWithId (js "p1"); paperWithId (js "p2")]
  ∧ length (overviewPapers s) = length (elems (selectedPapers s)).
Proof.
  intros s.
  assert (H : selectionWellFormed s).
  { split_and!.
    - apply (bool_decide_unpack _). by vm_compute.
    - apply (bool_decide_unpack _). by vm_compute.
    - apply (bool_decide_unpack _). by vm_compute. }
  split_and!; [exact H | by vm_compute |].
  exact (proj2 (proj2 (overview_shows_the_selected_papers s H))).
Defined.

(** X17. A click on "Select All" flips the checkbox, except over an empty
    collection, where it stays checked; and two clicks in a row leave every
    paper selected if the checkbox was checked before them and none
    otherwise. *)
Theorem select_all_flips_the_checkbox (w : World) :
  let once := Split.dispatch Split.SelectAllChange w in
  let twice := Split.dispatch Split.SelectAllChange once in
  selectAllChecked (state once)
  = negb (selectAllChecked (state w)) || bool_decide (papers (state w) = [])
  ∧ elems (selectedPapers (state twice))
    = if selectAllChecked (state w) then Paper.id <$> papers (state w)
      else [].
Proof.
  unfold Split.dispatch. simpl Split.handler.
  rewrite !exec_handleSelectAll. unfold selectAllChecked. simpl.
  destruct (length (elems (selectedPapers (state w)))
            =? length (papers (state w)))%nat eqn:Hchecked; simpl.
  - destruct (papers (state w)) as [|paper ps]; by simpl.
  - rewrite length_fmap, Nat.eqb_refl. done.
Qed.

(** ** Removing the selected papers *)

(** X19. Removing the selected papers leaves an empty selection and, in
    their order, exactly the papers whose id was not selected; a second
    click on the bin then changes nothing at all. *)
Theorem delete_selected_is_idempotent (w : World) :
  let w' := Split.dispatch Split.DeleteSelectedClick w in
  Split.dispatch Split.DeleteSelectedClick w' = w'
  ∧ elems (selectedPapers (state w')) = []
  ∧ papers (state w') `sublist_of` papers (state w)
  ∧ (∀ paper, paper ∈ papers (state w')
              ↔ paper ∈ papers (state w)
                ∧ Paper.id paper ∉ elems (selectedPapers (state w))).
Proof.
  unfold Split.dispatch. simpl Split.handler.
  rewrite (exec_handleDeleteSelected (state w) w).
  destruct (elems (selectedPapers (state w))) as [|x sel] eqn:Hsel.
  - simpl. rewrite exec_handleDeleteSelected, Hsel. simpl.
    split_and!; [done | done | done |].
    intros paper. split; [|by intros [? _]].
    intros Hin. split; [done|]. apply not_elem_of_nil.
  - simpl. rewrite exec_handleDeleteSelected. simpl.
    split_and!; [done | done | apply sublist_filter |].
    intros paper. rewrite list_elem_of_filter. tauto.
Qed.

(** ** What a session keeps *)

Lemma selectionWellFormed_dispatch w ev :
  selectionWellFormed (state w) → offered w ev →
  selectionWellFormed (state (Split.dispatch ev w)).
Proof.
  intros (Hids & Hsel & Hvalid) Hoff.
  destruct ev; try contradiction;
    try (unfold Split.dispatch; simpl Split.handler; unfold_handlers;
         case_handler; simpl; by split_and!).
  - split_and!; [| |apply selectionValid_selectAll];
      unfold Split.dispatch; simpl Split.handler;
      rewrite exec_handleSelectAll; simpl; [done|].
    destruct (_ =? _)%nat; [apply NoDup_nil_2 | done].
  - split_and!; [| |by apply selectionValid_toggle];
      unfold Split.dispatch; simpl Split.handler;
      rewrite exec_handlePaperSelect; simpl; [done|].
    by apply NoDup_togglePaper.
  - split_and!; [| |by apply selectionValid_delete];
      unfold Split.dispatch; simpl Split.handler;
      rewrite exec_handleDeleteSelected;
      destruct (_ =? _)%nat; simpl; try done.
    + eapply sublist_NoDup; [exact Hids|].
      apply fmap_sublist, sublist_filter.
    + apply NoDup_nil_2.
Qed.

(** X12. Once papers with distinct ids have arrived in
    [Deepdive/index.tsx], whatever the user then does on the page, the loaded
    papers keep distinct ids, no id is selected twice, and every selected id
    is the id of a loaded paper. *)
Theorem session_keeps_selection_well_formed
    (audio : option Audio.t) (data : list Paper.t)
    (evs : list Split.Event) :
  NoDup (Paper.id <$> data) →
  let w := Split.dispatch (Split.PapersFetched data) (Split.mount audio) in
  offeredAll evs w →
  selectionWellFormed (state (Split.run evs w)).
Proof.
  intros Hdata w.
  assert (Hw : selectionWellFormed (state w))
    by (split_and!; [done | apply NoDup_nil_2 | by apply selectionValid_nil]).
  clearbody w. clear Hdata. revert w Hw.
  induction evs as [|ev evs IH]; intros w Hw Hoff; [done|].
  destruct Hoff as [Hev Hrest]. rewrite Split_run_cons.
  apply IH; [|done]. by apply selectionWellFormed_dispatch.
Qed.

Lemma session_keeps_selection_well_formed_witness :
  let data := [paperWithId (js "p1"); paperWithId (js "p2")] in
  let evs := [Split.PaperCheckboxChange (js "p2"); Split.SelectAllChange;
              Split.PaperCheckboxChange (js "p1");
              Split.DeleteSelectedClick] in
  NoDup (Paper.id <$> data)
  ∧ offeredAll evs
      (Split.dispatch (Split.PapersFetched data) (Split.mount None))
  ∧ selectionWellFormed
      (state (Split.run evs
                (Split.dispatch (Split.PapersFetched data)
                   (Split.mount None)))).
Proof.
  intros data evs.
  assert (Hd : NoDup (Paper.id <$> data))
    by (apply (bool_decide_unpack _); by vm_compute).
  assert (Ho : offeredAll evs
                 (Split.dispatch (Split.PapersFetched data)
                    (Split.mount None))).
  { simpl. split_and!; try exact I.
    - apply (bool_decide_unpack _). by vm_compute.
    - apply (bool_decide_unpack _). by vm_compute. }
  split_and!; [exact Hd | exact Ho |].
  exact (session_keeps_selection_well_formed None data evs Hd Ho).
Defined.

(** ** The transcript of [Deepdive/index.tsx] *)

Lemma transcriptKept_refl l : transcriptKept l l.
Proof. by split. Qed.

Lemma transcriptKept_trans l1 l2 l3 :
  transcriptKept l1 l2 → transcriptKept l2 l3 → transcriptKept l1 l3.
Proof.
  intros [Hlen12 Htake12] [Hlen23 Htake23]. split; [lia|].
  rewrite <- Htake12.
  assert (Hmin : ∀ l : list ChatMessage,
            take (length l1 - 1) l
            = take (length l1 - 1) (take (length l2 - 1) l))
    by (intros l; rewrite take_take; f_equal; lia).
  by rewrite (Hmin l3), (Hmin l2), Htake23.
Qed.

Lemma transcriptKept_snoc l x : transcriptKept l (l ++ [x]).
Proof.
  split; [rewrite length_app; lia|].
  by rewrite take_app_le by lia.
Qed.

Lemma transcriptKept_replaceLast l x : transcriptKept l (replaceLast x l).
Proof.
  split; [by rewrite replaceLast_length|].
  destruct (decide (l = [])) as [->|Hne]; [done|].
  destruct (exists_last Hne) as (init & last & ->).
  rewrite replaceLast_snoc, length_app. simpl.
  replace (length init + 1 - 1) with (length init) by lia.
  by rewrite !take_app_length.
Qed.

Lemma transcriptKept_dispatch w ev :
  transcriptKept (messages (state w)) (messages (state (Split.dispatch ev w))).
Proof.
  destruct ev; unfold Split.dispatch; simpl Split.handler;
    try (unfold_handlers; case_handler; simpl;
         first [apply transcriptKept_refl | apply transcriptKept_snoc]).
  unfold handleSendMessage_settled. case_handler;
    apply transcriptKept_replaceLast.
Qed.

(** X18. In [Deepdive/index.tsx] nothing ever removes a turn from the
    transcript: through any sequence of events its length does not decrease,
    and every turn except the one that was last keeps its message and its
    response. *)
Theorem split_transcript_never_loses_a_turn
    (evs : list Split.Event) (w : World) :
  let old := messages (state w) in
  let new := messages (state (Split.run evs w)) in
  length old ≤ length new
  ∧ ∀ k turn, S k < length old → old !! k = Some turn → new !! k = Some turn.
Proof.
  assert (Hkept : transcriptKept (messages (state w))
                                 (messages (state (Split.run evs w)))).
  { revert w. induction evs as [|ev evs IH]; intros w.
    - apply transcriptKept_refl.
    - rewrite Split_run_cons. eapply transcriptKept_trans; [|apply IH].
      apply transcriptKept_dispatch. }
  destruct Hkept as [Hlen Htake]. split; [done|].
  intros k turn Hk Hold.
  rewrite <- (lookup_take_lt _ (length (messages (state w)) - 1)) by lia.
  rewrite Htake. by rewrite lookup_take_lt by lia.
Qed.

(** ** Dragging *)

(** X6. In [Deepdive/index.tsx], once the button has gone down on the track
    the dragging flag is never lowered again: whatever events follow, the
    flag stays raised, the displayed time never changes, and no media
    position is written. *)
Theorem split_mouse_down_freezes_the_time_display
    (evs : list Split.Event) (w : World) :
  let w' := Split.run (Split.ProgressMouseDown :: evs) w in
  isDragging (state w') = true
  ∧ currentTime (state w') = currentTime (state w)
  ∧ mediaSeeks (log w') = mediaSeeks (log w).
Proof.
  assert (Hstep : ∀ ev w0, isDragging (state w0) = true →
            isDragging (state (Split.dispatch ev w0)) = true
            ∧ currentTime (state (Split.dispatch ev w0))
              = currentTime (state w0)
            ∧ mediaSeeks (log (Split.dispatch ev w0)) = mediaSeeks (log w0)).
  { intros ev w0 Hd.
    destruct ev; unfold Split.dispatch; simpl Split.handler;
      unfold_handlers; rewrite ?Hd; case_handler; simpl;
      rewrite ?mediaSeeks_app, ?app_nil_r; done. }
  assert (Hrun : ∀ w0, isDragging (state w0) = true →
            isDragging (state (Split.run evs w0)) = true
            ∧ currentTime (state (Split.run evs w0)) = currentTime (state w0)
            ∧ mediaSeeks (log (Split.run evs w0)) = mediaSeeks (log w0)).
  { induction evs as [|ev evs IH]; intros w0 Hd; [done|].
    rewrite Split_run_cons.
    destruct (Hstep ev w0 Hd) as (Hd' & Ht' & Hs').
    destruct (IH _ Hd') as (-> & -> & ->). done. }
  cbv zeta. rewrite Split_run_cons.
  destruct (Hrun (Split.dispatch Split.ProgressMouseDown w) eq_refl)
    as (-> & -> & ->).
  split_and!; [done | done |].
  unfold Split.dispatch. simpl. by rewrite mediaSeeks_app, app_nil_r.
Qed.

Lemma listenersSynced_dispatch i ev :
  listenersSynced i → listenersSynced (Monolith.dispatch ev i).
Proof.
  unfold listenersSynced. intros Hsync.
  unfold Monolith.dispatch, Monolith.commit. simpl Monolith.listeners.
  match goal with
  | |- context [eqb ?a ?b] => destruct (eqb a b) eqn:Heq
  end.
  - apply eqb_prop in Heq. rewrite Hsync, Heq.
    by destruct (_ =? _)%nat.
  - by destruct (_ =? _)%nat.
Qed.

Lemma listenersSynced_run evs i :
  listenersSynced i → listenersSynced (Monolith.run evs i).
Proof.
  revert i. induction evs as [|ev evs IH]; intros i Hsync; [done|].
  apply IH. by apply listenersSynced_dispatch.
Qed.

(** X7. In every state [DeepDive.tsx] reaches from its mount, while no drag
    is in progress the document-level mouse listeners are inert: a pointer
    move or a button release anywhere on the page changes nothing. *)
Theorem idle_document_listeners_do_nothing
    (evs : list Monolith.Event) (audio : option Audio.t)
    (track : option Rect.t) (clientX : Q) :
  let i := Monolith.run evs (Monolith.mount audio track) in
  isDragging (state (Monolith.world i)) = false →
  Monolith.dispatch (Monolith.DocumentMouseMove clientX) i = i
  ∧ Monolith.dispatch Monolith.DocumentMouseUp i = i.
Proof.
  intros i Hidle.
  assert (Hsync : listenersSynced i)
    by (apply listenersSynced_run; reflexivity).
  unfold listenersSynced in Hsync. rewrite Hidle in Hsync.
  unfold Monolith.dispatch, Monolith.commit. simpl Monolith.handler.
  unfold Monolith.handleMouseMove, Monolith.handleMouseUp.
  rewrite Hsync. unfold_monad. simpl.
  rewrite Nat.eqb_refl, eqb_reflx. by destruct i.
Qed.

Lemma idle_document_listeners_do_nothing_witness :
  let i := Monolith.run (dragInteraction [50%Q; 70%Q])
             (Monolith.mount
                (Some {| Audio.currentTime := 0; Audio.duration := 600 |})
                (Some {| Rect.left := 0; Rect.width := 100 |})) in
  isDragging (state (Monolith.world i)) = false
  ∧ Monolith.dispatch (Monolith.DocumentMouseMove 20) i = i.
Proof.
  intros i.
  assert (H : isDragging (state (Monolith.world i)) = false) by reflexivity.
  split; [exact H|].
  exact (proj1 (idle_document_listeners_do_nothing
                  (dragInteraction [50%Q; 70%Q])
                  (Some {| Audio.currentTime := 0; Audio.duration := 600 |})
                  (Some {| Rect.left := 0; Rect.width := 100 |}) 20 H)).
Defined.

(** ** Trimming and the submit guard *)

Lemma trimStart_split (s : jsstring) :
  ∃ l, s = l ++ trimStart s ∧ Forall (λ c, isWhiteSpace c = true) l.
Proof.
  induction s as [|c s (l & Hs & Hl)]; [by exists []|].
  simpl. destruct (isWhiteSpace c) eqn:Hc.
  - exists (c :: l). split; [by rewrite Hs at 1 | by constructor].
  - by exists [].
Qed.

Lemma trimStart_head (s : jsstring) c t :
  trimStart s = c :: t → isWhiteSpace c = false.
Proof.
  induction s as [|c' s IH]; [done|]. simpl.
  destruct (isWhiteSpace c') eqn:Hc; [done|]. by intros [= <- _].
Qed.

Lemma trimStart_fixed (s : jsstring) :
  (∀ c t, s = c :: t → isWhiteSpace c = false) → trimStart s = s.
Proof.
  destruct s as [|c s]; [done|]. intros H. simpl.
  by rewrite (H c s eq_refl).
Qed.

Lemma trimStart_nil_iff (s : jsstring) :
  trimStart s = [] ↔ Forall (λ c, isWhiteSpace c = true) s.
Proof.
  induction s as [|c s IH]; [done|]. simpl.
  destruct (isWhiteSpace c) eqn:Hc.
  - rewrite IH. split; [by constructor | by intros [_ ?]%Forall_cons_1].
  - split; [done|]. intros [? _]%Forall_cons_1. congruence.
Qed.

Lemma trim_nil_iff (s : jsstring) :
  trim s = [] ↔ Forall (λ c, isWhiteSpace c = true) s.
Proof.
  unfold trim, trimEnd. rewrite <- trimStart_nil_iff. split.
  - intros H. apply (f_equal (λ l, rev l)) in H.
    rewrite rev_involutive in H.
    simpl in H. apply trimStart_nil_iff in H.
    destruct (trimStart s) as [|c t] eqn:Hs; [done|].
    apply trimStart_head in Hs.
    apply List.Forall_rev in H. rewrite rev_involutive in H.
    apply Forall_cons_1 in H as [? _]. congruence.
  - by intros ->.
Qed.

Lemma last_rev (l : jsstring) : list.last (rev l) = head l.
Proof. destruct l as [|c l]; [done|]. simpl. apply last_snoc. Qed.

(** X10. [trim] removes exactly the whitespace at the two ends: the string
    is its trimmed form between a run of whitespace and another, the trimmed
    form neither starts nor ends with whitespace, and trimming it again
    changes nothing. *)
Theorem trim_strips_both_ends (s : jsstring) :
  (∃ l r, s = l ++ trim s ++ r
          ∧ Forall (λ c, isWhiteSpace c = true) l
          ∧ Forall (λ c, isWhiteSpace c = true) r)
  ∧ (∀ c, head (trim s) = Some c → isWhiteSpace c = false)
  ∧ (∀ c, list.last (trim s) = Some c → isWhiteSpace c = false)
  ∧ trim (trim s) = trim s.
Proof.
  destruct (trimStart_split s) as (l & Hs & Hl).
  destruct (trimStart_split (rev (trimStart s))) as (r & Hr & Hrw).
  assert (Hmid : trimStart s = trim s ++ rev r).
  { unfold trim, trimEnd. rewrite <- rev_app_distr, <- Hr.
    by rewrite rev_involutive. }
  assert (Hlast : ∀ c, list.last (trim s) = Some c → isWhiteSpace c = false).
  { intros c Hc. unfold trim, trimEnd in Hc.
    rewrite last_rev in Hc.
    destruct (trimStart (rev (trimStart s))) as [|c' t] eqn:Ht; [done|].
    simpl in Hc. injection Hc as ->. by apply trimStart_head in Ht. }
  assert (Hhead : ∀ c, head (trim s) = Some c → isWhiteSpace c = false).
  { intros c Hc. destruct (trim s) as [|c' t] eqn:Ht; [done|].
    simpl in Hc. injection Hc as ->.
    simpl in Hmid. by apply trimStart_head in Hmid. }
  split_and!; [| done | done |].
  - exists l, (rev r). split_and!; [by rewrite <- Hmid | done |].
    by apply List.Forall_rev.
  - assert (H1 : trimStart (trim s) = trim s).
    { apply trimStart_fixed. intros c t Ht. apply Hhead. by rewrite Ht. }
    unfold trim at 1. rewrite H1. unfold trimEnd.
    rewrite trimStart_fixed; [apply rev_involutive|].
    intros c t Ht. apply Hlast.
    rewrite <- (rev_involutive (trim s)), Ht. by rewrite last_rev.
Qed.

(** X9. Submitting changes nothing (no turn, no request, the buffer kept)
    exactly when every character of the input buffer is whitespace. *)
Theorem submit_does_nothing_iff_blank (w : World) :
  Split.dispatch Split.SendMessage w = w
  ↔ Forall (λ c, isWhiteSpace c = true) (inputMessage (state w)).
Proof.
  rewrite <- trim_nil_iff.
  unfold Split.dispatch. simpl Split.handler. unfold handleSendMessage.
  destruct (trim (inputMessage (state w))) as [|c t].
  - split; [done|]. intros _. by destruct w.
  - split; [|done]. unfold_prims. unfold_monad. simpl.
    intros Heq. apply (f_equal (λ w, length (log w))) in Heq.
    simpl in Heq. rewrite !length_app in Heq. simpl in Heq. lia.
Qed.

(** ** Overlapping chat requests *)

Lemma Split_submit_messages w :
  trim (inputMessage (state w)) ≠ [] →
  messages (state (Split.dispatch Split.SendMessage w))
  = messages (state w)
      ++ [{| message := inputMessage (state w); response := [] |}].
Proof.
  intros Hne. unfold Split.dispatch. simpl Split.handler.
  unfold handleSendMessage.
  by destruct (trim (inputMessage (state w))).
Qed.

(** X8. Two messages [a] and [b] are submitted before either request has
    settled, and both requests then succeed.  Whichever order they settle
    in, the turn of [a] never receives a response, and the last turn shows
    the message and the response of the request that settled last: if the
    request for [a] settles last, the turn of [b] now reads as [a] with the
    response to [a], and [b] is gone from the transcript. *)
Theorem overlapping_requests_settle_on_the_last_turn
    (w : World) (a b ta tb : jsstring) (sa sb : State) :
  trim a ≠ [] → trim b ≠ [] →
  inputMessage sa = a → inputMessage sb = b →
  let submitted :=
    Split.run [Split.InputChange a; Split.SendMessage;
               Split.InputChange b; Split.SendMessage] w in
  let settle_a := Split.ChatSettled sa (Response true (Some ta)) in
  let settle_b := Split.ChatSettled sb (Response true (Some tb)) in
  messages (state submitted)
  = messages (state w) ++ [{| message := a; response := [] |};
                           {| message := b; response := [] |}]
  ∧ messages (state (Split.run [settle_a; settle_b] submitted))
    = messages (state w) ++ [{| message := a; response := [] |};
                             {| message := b; response := tb |}]
  ∧ messages (state (Split.run [settle_b; settle_a] submitted))
    = messages (state w) ++ [{| message := a; response := [] |};
                             {| message := a; response := ta |}].
Proof.
  intros Ha Hb <- <- submitted settle_a settle_b.
  assert (Hsub : messages (state submitted)
                 = (messages (state w)
                      ++ [{| message := inputMessage sa; response := [] |}])
                     ++ [{| message := inputMessage sb; response := [] |}]).
  { subst submitted. rewrite !Split_run_cons. simpl Split.run.
    rewrite Split_submit_messages by done.
    change (inputMessage (state (Split.dispatch (Split.InputChange ?v) ?x)))
      with v.
    change (messages (state (Split.dispatch (Split.InputChange ?v) ?x)))
      with (messages (state x)).
    rewrite Split_submit_messages by done.
    change (inputMessage (state (Split.dispatch (Split.InputChange ?v) ?x)))
      with v.
    reflexivity. }
  assert (Hsettle : ∀ s t x,
            messages (state (Split.dispatch
                               (Split.ChatSettled s (Response true (Some t)))
                               x))
            = replaceLast {| message := inputMessage s; response := t |}
                          (messages (state x))) by reflexivity.
  split_and!.
  - rewrite Hsub. by rewrite <- app_assoc.
  - subst settle_a settle_b. rewrite !Split_run_cons. simpl Split.run.
    rewrite !Hsettle, Hsub, !replaceLast_snoc. by rewrite <- app_assoc.
  - subst settle_a settle_b. rewrite !Split_run_cons. simpl Split.run.
    rewrite !Hsettle, Hsub, !replaceLast_snoc. by rewrite <- app_assoc.
Qed.

Lemma overlapping_requests_settle_on_the_last_turn_witness :
  let sa := set_inputMessage (js "a") initialState in
  let sb := set_inputMessage (js "b") initialState in
  trim (js "a") ≠ [] ∧ trim (js "b") ≠ []
  ∧ messages
      (state (Split.run
                [Split.ChatSettled sb (Response true (Some (js "B")));
                 Split.ChatSettled sa (Response true (Some (js "A")))]
                (Split.run [Split.InputChange (js "a"); Split.SendMessage;
                            Split.InputChange (js "b"); Split.SendMessage]
                           (Split.mount None))))
    = [] ++ [{| message := js "a"; response := [] |};
             {| message := js "a"; response := js "A" |}].
Proof.
  intros sa sb.
  assert (Ha : trim (js "a") ≠ []) by (by vm_compute).
  assert (Hb : trim (js "b") ≠ []) by (by vm_compute).
  split_and!; [exact Ha | exact Hb |].
  exact (proj2 (proj2 (overlapping_requests_settle_on_the_last_turn
                         (Split.mount None) (js "a") (js "b")
                         (js "A") (js "B") sa sb Ha Hb eq_refl eq_refl))).
Defined.

(** ** The displayed time during and after a drag *)

Lemma clamp01_bounds (v : Q) : (0 <= clamp01 v)%Q ∧ (clamp01 v <= 1)%Q.
Proof.
  unfold clamp01, Math_max, Math_min.
  destruct (Qle_bool v 1) eqn:H1; destruct (Qle_bool 0 _) eqn:H0;
    try apply Qle_bool_iff in H1; try apply Qle_bool_iff in H0;
    split; try done; try apply Qle_refl.
Qed.

(** X3. While the button is held in [DeepDive.tsx], the displayed time
    follows the pointer: after any moves it is the clamped fraction of the
    track under the last pointer position times the duration, and so it lies
    between zero and the duration, wherever on the page the pointer is. *)
Theorem dragged_time_follows_the_pointer
    (i : Monolith.Instance) (rect : Rect.t)
    (moves : list Q) (clientX : Q) :
  isDragging (state (Monolith.world i)) = false →
  progressRef (Monolith.world i) = Some rect →
  (0 < Rect.width rect)%Q →
  (0 <= duration (state (Monolith.world i)))%Q →
  let d := duration (state (Monolith.world i)) in
  let i' :=
    Monolith.run (Monolith.ProgressMouseDown
                    :: (Monolith.DocumentMouseMove <$> (moves ++ [clientX])))
                 i in
  let shown := currentTime (state (Monolith.world i')) in
  (shown == clamp01 ((clientX - Rect.left rect) / Rect.width rect) * d)%Q
  ∧ (0 <= shown)%Q ∧ (shown <= d)%Q.
Proof.
  intros Hd Hp Hw Hdur d i' shown.
  assert (Hshown : (shown == clamp01 ((clientX - Rect.left rect)
                                       / Rect.width rect) * d)%Q).
  { subst shown i'.
    rewrite Monolith_run_cons, dispatch_mouse_down by done.
    match goal with
    | |- context [Monolith.run (_ <$> ?ms) ?j] =>
        destruct (run_mouse_moves rect ms j)
          as (_ & _ & _ & _ & _ & ->); [done..|]
    end.
    rewrite last_snoc. simpl. by apply dragTime_clamped_fraction. }
  destruct (clamp01_bounds ((clientX - Rect.left rect) / Rect.width rect))
    as [H0 H1].
  split; [done|]. rewrite Hshown. split.
  - by apply Qmult_le_0_compat.
  - rewrite <- (Qmult_1_l d) at 2. by apply Qmult_le_compat_r.
Qed.

Lemma dragged_time_follows_the_pointer_witness :
  let rect := {| Rect.left := 0; Rect.width := 100 |} in
  let i := Monolith.mount None (Some rect) in
  isDragging (state (Monolith.world i)) = false
  ∧ progressRef (Monolith.world i) = Some rect
  ∧ (0 < Rect.width rect)%Q
  ∧ (0 <= duration (state (Monolith.world i)))%Q
  ∧ (currentTime
       (state (Monolith.world
                 (Monolith.run
                    (Monolith.ProgressMouseDown
                       :: (Monolith.DocumentMouseMove
                             <$> ([30%Q] ++ [250%Q])))
                    i)))
     <= 613)%Q.
Proof.
  intros rect i.
  assert (H1 : isDragging (state (Monolith.world i)) = false) by reflexivity.
  assert (H2 : progressRef (Monolith.world i) = Some rect) by reflexivity.
  assert (H3 : (0 < Rect.width rect)%Q) by (by vm_compute).
  assert (H4 : (0 <= duration (state (Monolith.world i)))%Q)
    by (by vm_compute).
  split_and!; [exact H1 | exact H2 | exact H3 | exact H4 |].
  exact (proj2 (proj2 (dragged_time_follows_the_pointer
                         i rect [30%Q] 250 H1 H2 H3 H4))).
Defined.




(** ** Instances of the earlier general facts *)

Lemma Monolith_reachable_selection_change_clears_transcript_witness :
  changesSelection Monolith.DeselectAllClick
  ∧ messages
      (state (Monolith.world
                (Monolith.dispatch Monolith.DeselectAllClick
                   (Monolith.run [Monolith.InputChange (js "hello");
                                  Monolith.SendMessage]
                                 (Monolith.mount None None))))) = [].
Proof.
  assert (H : changesSelection Monolith.DeselectAllClick) by exact I.
  split; [exact H|].
  exact (Monolith_reachable_selection_change_clears_transcript
           [Monolith.InputChange (js "hello"); Monolith.SendMessage]
           None None Monolith.DeselectAllClick H).
Defined.


Lemma progress_click_within_track_witness :
  let rect := {| Rect.left := 10; Rect.width := 100 |} in
  let el := {| Audio.currentTime := 0; Audio.duration := 613 |} in
  let w := Monolith.world (Monolith.mount (Some el) (Some rect)) in
  progressRef w = Some rect ∧ audioRef w = Some el
  ∧ isDragging (state w) = false
  ∧ (0 < Rect.width rect)%Q
  ∧ (Rect.left rect <= 110)%Q
  ∧ (110 <= Rect.left rect + Rect.width rect)%Q
  ∧ (110 == Rect.left rect + Rect.width rect)%Q
  ∧ (currentTime (state (exec (handleProgressClick (state w) 110) w))
     == duration (state w))%Q.
Proof.
  intros rect el w.
  assert (H1 : progressRef w = Some rect) by reflexivity.
  assert (H2 : audioRef w = Some el) by reflexivity.
  assert (H3 : isDragging (state w) = false) by reflexivity.
  assert (H4 : (0 < Rect.width rect)%Q) by (by vm_compute).
  assert (H5 : (Rect.left rect <= 110)%Q) by (by vm_compute).
  assert (H6 : (110 <= Rect.left rect + Rect.width rect)%Q)
    by (by vm_compute).
  assert (H7 : (110 == Rect.left rect + Rect.width rect)%Q)
    by (by vm_compute).
  split_and!; [exact H1 | exact H2 | exact H3 | exact H4 | exact H5
              | exact H6 | exact H7 |].
  exact (proj2 (proj2 (proj2 (progress_click_within_track
                                (state w) 110 w rect el
                                H1 H2 H3 H4 H5 H6))) H7).
Defined.
